(** * google-ads-doctor: the OAuth2 diagnostic engine (oauthdoctor/oauth/helper.go)

    A shallow embedding of [helper.go] and of the parts of the Go standard
    library it calls ([strings], [bufio], [encoding/json], [log], [net/http]),
    followed by the properties of the classifier ([decodeError]), of the
    remediation switch ([diagnose]), of the interactive credential
    replacement, of the account probe ([getAccount]), of the token exchange
    ([oauth2Client]) and of [ReadCustomerID].

    Go strings are byte sequences, and so are Rocq's [string]s (one [ascii]
    per byte), so a Go string is modelled by a [string] as it is. *)

From Stdlib Require Import String Ascii List Bool ZArith NArith Lia.
Import ListNotations.
Open Scope list_scope.
Open Scope string_scope.

(* ===================================================================== *)
(** ** Bytes that cannot be written inside a string literal *)
(* ===================================================================== *)

(** The double quote, byte 0x22. *)
Definition dquote : ascii := "034"%char.
(** The line feed, byte 0x0A: Go's ['\n']. *)
Definition LF : ascii := "010"%char.
Definition nl : string := String LF "".

(** [quoted s] is [s] between two double quotes: Go's ["\"s\""]. *)
Definition quoted (s : string) : string := String dquote (s ++ String dquote "").

(** JSON test inputs are written with apostrophes where the program receives
    double quotes: [js "{'error':null}"] is the text [{"error":null}]. *)
Fixpoint js (s : string) : string :=
  match s with
  | "" => ""
  | String c s' => String (if Ascii.eqb c "'"%char then dquote else c) (js s')
  end.

(* ===================================================================== *)
(** ** Package [strings] *)
(* ===================================================================== *)

Module strings.

(** [strings.HasPrefix(s, prefix)]. *)
Fixpoint HasPrefix (s prefix : string) {struct prefix} : bool :=
  match prefix, s with
  | "", _ => true
  | String p prefix', String c s' => Ascii.eqb c p && HasPrefix s' prefix'
  | String _ _, "" => false
  end.

(** [strings.Contains(s, substr)]: [substr] occurs at some offset of [s]. *)
Fixpoint Contains (s substr : string) : bool :=
  HasPrefix s substr ||
  match s with
  | "" => false
  | String _ s' => Contains s' substr
  end.

(** The scan of [strings.Replace(s, old, new, n)] for a non-empty [old]:
    left to right, non-overlapping occurrences, at most [limit] of them
    ([None]: no limit).  [skip] counts the bytes of an occurrence of [old]
    that are still to be dropped. *)
Fixpoint replaceScan (old new : string) (limit : option nat) (skip : nat)
         (s : string) : string :=
  match s with
  | "" => ""
  | String c s' =>
      match skip with
      | S k => replaceScan old new limit k s'
      | O =>
          match limit with
          | Some O => s
          | _ =>
              if HasPrefix s old
              then new ++ replaceScan old new
                            (match limit with Some (S m) => Some m | _ => limit end)
                            (String.length old - 1) s'
              else String c (replaceScan old new limit O s')
          end
      end
  end.

(** [strings.Replace(s, old, new, n)]; [n < 0] puts no limit on the number
    of replacements.  Every call of the program has a one-byte [old]; the
    case of an empty [old] (Go then inserts [new] at every rune boundary)
    is not reached and is left as the identity. *)
Definition Replace (s old new : string) (n : Z) : string :=
  if String.eqb old new || Z.eqb n 0 then s
  else match old with
       | "" => s
       | _ => replaceScan old new
                (if Z.ltb n 0 then None else Some (Z.to_nat n)) O s
       end.

(** The encodings of the runes for which [unicode.IsSpace] holds: the six
    ASCII ones, U+0085, U+00A0, U+1680, U+2000..U+200A, U+2028, U+2029,
    U+202F, U+205F and U+3000.  A rune has one valid UTF-8 encoding, so the
    first (or last) rune of a string is a space exactly when the string
    starts (or ends) with one of these byte sequences. *)
Definition bytes (l : list nat) : string :=
  fold_right (fun n s => String (ascii_of_nat n) s) "" l.

Definition spaceRunes : list string :=
  map bytes
    ([ [9]; [10]; [11]; [12]; [13]; [32];
       [194; 133]; [194; 160]; [225; 154; 128] ]
     ++ map (fun k => [226; 128; 128 + k]) (seq 0 11)
     ++ [ [226; 128; 168]; [226; 128; 169]; [226; 128; 175];
          [226; 129; 159]; [227; 128; 128] ])%list.

(** The string without its first rune when that rune is a space. *)
Definition dropSpaceRune (s : string) : option string :=
  match find (HasPrefix s) spaceRunes with
  | Some r => Some (substring (String.length r) (String.length s - String.length r) s)
  | None => None
  end.

(** [strings.TrimLeftFunc(s, unicode.IsSpace)].  A space rune has at most
    three bytes; [fuel] bounds the number of runes dropped. *)
Fixpoint trimLeftSpace (fuel : nat) (s : string) : string :=
  match fuel with
  | O => s
  | S fuel' =>
      match dropSpaceRune s with
      | Some s' => trimLeftSpace fuel' s'
      | None => s
      end
  end.

Fixpoint rev (s : string) : string :=
  match s with
  | "" => ""
  | String c s' => rev s' ++ String c ""
  end.

(** The string without its last rune when that rune is a space. *)
Definition dropLastSpaceRune (s : string) : option string :=
  match find (fun r => HasPrefix (rev s) (rev r)) spaceRunes with
  | Some r => Some (substring 0 (String.length s - String.length r) s)
  | None => None
  end.

(** [strings.TrimRightFunc(s, unicode.IsSpace)]. *)
Fixpoint trimRightSpace (fuel : nat) (s : string) : string :=
  match fuel with
  | O => s
  | S fuel' =>
      match dropLastSpaceRune s with
      | Some s' => trimRightSpace fuel' s'
      | None => s
      end
  end.

(** [strings.TrimSpace(s)]: leading space runes are dropped first, then
    trailing ones (the ASCII fast path and the [TrimFunc] fall-back of the
    library compute the same string).  Each step drops at least one byte,
    so [length s] steps are enough on either side. *)
Definition TrimSpace (s : string) : string :=
  let s1 := trimLeftSpace (String.length s) s in
  trimRightSpace (String.length s1) s1.

End strings.

(* ===================================================================== *)
(** ** The [error] interface *)
(* ===================================================================== *)

(** A Go [error] is any value with an [Error() string] method; the values
    of this type are the errors that are not [nil].  The model keeps the
    text the method returns and the dynamic type of the value
    ([*errors.errorString], [*url.Error], [*oauth2.RetrieveError], ...). *)
Record error : Type := mkError {
  Error : string;
  dynamicType : string
}.

Module errors.
(** [errors.New(text)]. *)
Definition New (text : string) : error :=
  {| Error := text; dynamicType := "*errors.errorString" |}.
End errors.

(* ===================================================================== *)
(** ** Package [diag]: the credential store *)
(* ===================================================================== *)

Module diag.

(** The keys [diag.ClientID], [diag.ClientSecret], [diag.DevToken] and
    [diag.RefreshToken] that [helper.go] passes to [ReplaceConfig], and the
    login customer ID, which the engine only reads. *)
Inductive Key : Type :=
| ClientID | ClientSecret | DevToken | RefreshToken | LoginCustomerID.

Definition Key_eqb (a b : Key) : bool :=
  match a, b with
  | ClientID, ClientID | ClientSecret, ClientSecret | DevToken, DevToken
  | RefreshToken, RefreshToken | LoginCustomerID, LoginCustomerID => true
  | _, _ => false
  end.

Module ConfigFile.
(** Modelled from the spec: the declaration of [diag.ConfigFile] is not
    part of [helper.go]; its fields are the CredentialFields of the
    specification (client ID, client secret, developer token,
    login-customer-id, refresh token), of which [helper.go] reads
    [ClientID], [ClientSecret], [DevToken] and [LoginCustomerID]. *)
Record t : Type := mk {
  ClientID : string;
  ClientSecret : string;
  DevToken : string;
  RefreshToken : string;
  LoginCustomerID : string
}.

Definition get (k : Key) (c : t) : string :=
  match k with
  | diag.ClientID => ClientID c
  | diag.ClientSecret => ClientSecret c
  | diag.DevToken => DevToken c
  | diag.RefreshToken => RefreshToken c
  | diag.LoginCustomerID => LoginCustomerID c
  end.

(** Modelled from the spec: [ReplaceConfig] is defined in package [diag],
    outside [helper.go].  The specification describes it as
    [replace(field, value)], a complete replacement of the named field
    that leaves the other fields as they are.  A failing write of the
    configuration file is outside this model. *)
Definition ReplaceConfig (k : Key) (v : string) (c : t) : t :=
  match k with
  | diag.ClientID =>
      mk v (ClientSecret c) (DevToken c) (RefreshToken c) (LoginCustomerID c)
  | diag.ClientSecret =>
      mk (ClientID c) v (DevToken c) (RefreshToken c) (LoginCustomerID c)
  | diag.DevToken =>
      mk (ClientID c) (ClientSecret c) v (RefreshToken c) (LoginCustomerID c)
  | diag.RefreshToken =>
      mk (ClientID c) (ClientSecret c) (DevToken c) v (LoginCustomerID c)
  | diag.LoginCustomerID =>
      mk (ClientID c) (ClientSecret c) (DevToken c) (RefreshToken c) v
  end.
End ConfigFile.

End diag.

(* ===================================================================== *)
(** ** Package [unicode/utf8] *)
(* ===================================================================== *)

Module utf8.

Definition byte (c : ascii) : N := N_of_ascii c.
Definition between (lo hi : N) (c : ascii) : bool :=
  (N.leb lo (byte c) && N.leb (byte c) hi)%bool.
Definition cont : ascii -> bool := between 128 191.

(** The bytes of [utf8.RuneError], U+FFFD. *)
Definition RuneError : string := strings.bytes [239; 191; 189].

(** The width of the rune [utf8.DecodeRuneInString(s)] finds at the start
    of a non-empty [s]; [0] stands for an invalid or truncated encoding,
    which decodes as [RuneError] of width 1. *)
Definition validWidth (s : string) : nat :=
  match s with
  | "" => 0
  | String c0 s1 =>
      if N.ltb (byte c0) 128 then 1
      else match s1 with
      | "" => 0
      | String c1 s2 =>
          if between 194 223 c0 then (if cont c1 then 2 else 0)
          else match s2 with
          | "" => 0
          | String c2 s3 =>
              let second3 :=
                if N.eqb (byte c0) 224 then between 160 191 c1
                else if N.eqb (byte c0) 237 then between 128 159 c1
                else between 225 239 c0 && cont c1 in
              if between 224 239 c0 then (if second3 && cont c2 then 3 else 0)
              else match s3 with
              | "" => 0
              | String c3 _ =>
                  let second4 :=
                    if N.eqb (byte c0) 240 then between 144 191 c1
                    else if N.eqb (byte c0) 244 then between 128 143 c1
                    else between 241 243 c0 && cont c1 in
                  if between 240 244 c0 && second4 && cont c2 && cont c3
                  then 4 else 0
              end
          end
      end
  end.

(** [utf8.EncodeRune]: the UTF-8 bytes of the code point [r]; a surrogate
    or a value above U+10FFFF is encoded as [RuneError]. *)
Definition EncodeRune (r : N) : string :=
  let b (n : N) := ascii_of_N n in
  let low6 (n : N) := N.lor 128 (N.land n 63) in
  if N.ltb r 128 then String (b r) ""
  else if N.ltb r 2048 then
    String (b (N.lor 192 (N.shiftr r 6))) (String (b (low6 r)) "")
  else if (N.leb 55296 r && N.ltb r 57344) || N.ltb 1114111 r then RuneError
  else if N.ltb r 65536 then
    String (b (N.lor 224 (N.shiftr r 12)))
      (String (b (low6 (N.shiftr r 6))) (String (b (low6 r)) ""))
  else
    String (b (N.lor 240 (N.shiftr r 18)))
      (String (b (low6 (N.shiftr r 12)))
         (String (b (low6 (N.shiftr r 6))) (String (b (low6 r)) ""))).

End utf8.

(* ===================================================================== *)
(** ** Package [encoding/json] *)
(* ===================================================================== *)

Module json.

(** *** The syntax of JSON texts *)

#[local] Set Warnings "-register-all".
Inductive JValue : Type :=
| JNull
| JBool (b : bool)
| JNumber (literal : string)
| JString (s : string)
| JArray (elements : list JValue)
| JObject (members : list (string * JValue)).

Inductive token : Type :=
| TLBrace | TRBrace | TLBracket | TRBracket | TColon | TComma
| TString (s : string) | TNumber (literal : string)
| TTrue | TFalse | TNull.

Definition isDigit (c : ascii) : bool := utf8.between 48 57 c.
Definition isHex (c : ascii) : bool :=
  isDigit c || utf8.between 97 102 c || utf8.between 65 70 c.
Definition hexVal (c : ascii) : N :=
  if isDigit c then utf8.byte c - 48
  else if utf8.between 97 102 c then utf8.byte c - 87
  else utf8.byte c - 55.

(** [getu4]: the value of the four hexadecimal digits of a [\uXXXX]. *)
Definition getu4 (a b c d : ascii) : option N :=
  if isHex a && isHex b && isHex c && isHex d
  then Some (hexVal a * 4096 + hexVal b * 256 + hexVal c * 16 + hexVal d)%N
  else None.

Definition isSurrogate (r : N) : bool := N.leb 55296 r && N.ltb r 57344.

(** [utf16.DecodeRune(r1, r2)] for a high surrogate followed by a low one. *)
Definition surrogatePair (r1 r2 : N) : option N :=
  if N.ltb r1 56320 && N.leb 56320 r2 && N.ltb r2 57344
  then Some (N.lor (N.shiftl (r1 - 55296) 10) (r2 - 56320) + 65536)%N
  else None.

Definition escaped (c : ascii) : option ascii :=
  match c with
  | "b" => Some "008" | "f" => Some "012" | "n" => Some "010"
  | "r" => Some "013" | "t" => Some "009"
  | "\" => Some "\" | "/" => Some "/"
  | _ => if Ascii.eqb c dquote then Some dquote else None
  end%char.

(** [unquote]: the Go string a JSON string literal stands for, from the
    bytes between its quotes.  Escapes are resolved, a lone surrogate
    escape becomes U+FFFD, and so does every byte that does not start a
    valid UTF-8 encoding. *)
Fixpoint unquote (s : string) : option string :=
  match s with
  | "" => Some ""
  | String "\" (String "u" (String a (String b (String c (String d rest))))) =>
      match getu4 a b c d with
      | None => None
      | Some r =>
          if isSurrogate r then
            match rest with
            | String "\" (String "u"
                (String a2 (String b2 (String c2 (String d2 rest2))))) =>
                match match getu4 a2 b2 c2 d2 with
                      | Some r2 => surrogatePair r r2
                      | None => None
                      end with
                | Some r12 =>
                    option_map (append (utf8.EncodeRune r12)) (unquote rest2)
                | None => option_map (append utf8.RuneError) (unquote rest)
                end
            | _ => option_map (append utf8.RuneError) (unquote rest)
            end
          else option_map (append (utf8.EncodeRune r)) (unquote rest)
      end
  | String "\" (String e rest) =>
      match escaped e with
      | Some c => option_map (String c) (unquote rest)
      | None => None
      end
  | String "\" "" => None
  | String c0 rest =>
      if Ascii.eqb c0 dquote || N.ltb (utf8.byte c0) 32 then None
      else
        match utf8.validWidth s, rest with
        | 2, String c1 r =>
            option_map (fun t => String c0 (String c1 t)) (unquote r)
        | 3, String c1 (String c2 r) =>
            option_map (fun t => String c0 (String c1 (String c2 t))) (unquote r)
        | 4, String c1 (String c2 (String c3 r)) =>
            option_map (fun t => String c0 (String c1 (String c2 (String c3 t))))
                       (unquote r)
        | 1, _ => option_map (String c0) (unquote rest)
        | _, _ => option_map (append utf8.RuneError) (unquote rest)
        end
  end.

(** *** The scanner: one byte at a time, as [scanner.step] *)

Inductive numState : Type :=
| stateNeg | state0 | state1 | stateDot | stateDot0
| stateE | stateESign | stateE0.

Inductive lexState : Type :=
| between
| inString (raw : string)
| inStringEsc (raw : string)
| inStringEscU (digits : nat) (raw : string)
| inNumber (st : numState) (literal : string)
| inLiteral (expected : string) (t : token).

Definition snoc (s : string) (c : ascii) : string := s ++ String c "".

Definition isSpace (c : ascii) : bool :=
  match c with
  | " " | "009" | "013" | "010" => true
  | _ => false
  end%char.

(** A byte met between two tokens. *)
Definition stepBetween (c : ascii) : option (lexState * list token) :=
  if isSpace c then Some (between, [])
  else if Ascii.eqb c dquote then Some (inString "", [])
  else if utf8.between 49 57 c then Some (inNumber state1 (String c ""), [])
  else
    match c with
    | "{" => Some (between, [TLBrace])
    | "}" => Some (between, [TRBrace])
    | "[" => Some (between, [TLBracket])
    | "]" => Some (between, [TRBracket])
    | ":" => Some (between, [TColon])
    | "," => Some (between, [TComma])
    | "-" => Some (inNumber stateNeg "-", [])
    | "0" => Some (inNumber state0 "0", [])
    | "t" => Some (inLiteral "rue" TTrue, [])
    | "f" => Some (inLiteral "alse" TFalse, [])
    | "n" => Some (inLiteral "ull" TNull, [])
    | _ => None
    end%char.

Definition isE (c : ascii) : bool := Ascii.eqb c "e" || Ascii.eqb c "E".

(** A byte met inside a number: the next state of the number, [None] when
    the byte cannot continue it. *)
Definition stepNumber (st : numState) (c : ascii) : option numState :=
  match st with
  | stateNeg =>
      if Ascii.eqb c "0" then Some state0
      else if utf8.between 49 57 c then Some state1 else None
  | state0 =>
      if Ascii.eqb c "." then Some stateDot
      else if isE c then Some stateE else None
  | state1 =>
      if isDigit c then Some state1
      else if Ascii.eqb c "." then Some stateDot
      else if isE c then Some stateE else None
  | stateDot => if isDigit c then Some stateDot0 else None
  | stateDot0 =>
      if isDigit c then Some stateDot0
      else if isE c then Some stateE else None
  | stateE =>
      if Ascii.eqb c "+" || Ascii.eqb c "-" then Some stateESign
      else if isDigit c then Some stateE0 else None
  | stateESign => if isDigit c then Some stateE0 else None
  | stateE0 => if isDigit c then Some stateE0 else None
  end.

(** The states in which a number may end. *)
Definition numberDone (st : numState) : bool :=
  match st with
  | state0 | state1 | stateDot0 | stateE0 => true
  | _ => false
  end.

Definition lexStep (st : lexState) (c : ascii) : option (lexState * list token) :=
  match st with
  | between => stepBetween c
  | inString raw =>
      if Ascii.eqb c dquote then
        match unquote raw with
        | Some s => Some (between, [TString s])
        | None => None
        end
      else if Ascii.eqb c "\" then Some (inStringEsc (snoc raw c), [])
      else if N.ltb (utf8.byte c) 32 then None
      else Some (inString (snoc raw c), [])
  | inStringEsc raw =>
      if Ascii.eqb c "u" then Some (inStringEscU 4 (snoc raw c), [])
      else match escaped c with
           | Some _ => Some (inString (snoc raw c), [])
           | None => None
           end
  | inStringEscU digits raw =>
      if isHex c then
        match digits with
        | S (S k) => Some (inStringEscU (S k) (snoc raw c), [])
        | _ => Some (inString (snoc raw c), [])
        end
      else None
  | inNumber nst lit =>
      match stepNumber nst c with
      | Some nst' => Some (inNumber nst' (snoc lit c), [])
      | None =>
          if numberDone nst then
            match stepBetween c with
            | Some (st', toks) => Some (st', TNumber lit :: toks)
            | None => None
            end
          else None
      end
  | inLiteral expected t =>
      match expected with
      | String e rest =>
          if Ascii.eqb c e then
            match rest with
            | "" => Some (between, [t])
            | _ => Some (inLiteral rest t, [])
            end
          else None
      | "" => None
      end
  end.

(** The end of the input. *)
Definition lexEnd (st : lexState) : option (list token) :=
  match st with
  | between => Some []
  | inNumber nst lit => if numberDone nst then Some [TNumber lit] else None
  | _ => None
  end.

Fixpoint lex (st : lexState) (s : string) : option (list token) :=
  match s with
  | "" => lexEnd st
  | String c s' =>
      match lexStep st c with
      | Some (st', toks) => option_map (app toks) (lex st' s')
      | None => None
      end
  end.

(** *** The grammar: the parse stack of the scanner *)

(** What an open array or object has collected so far, most recent
    first. *)
Inductive frame : Type :=
| parseArrayValue (done : list JValue)
| parseObjectKey (done : list (string * JValue))
| parseObjectValue (done : list (string * JValue)) (key : string).

Inductive expect : Type :=
| beginValue            (* a value starts here *)
| beginValueOrEmpty     (* just after [[]: a value or []] *)
| beginStringOrEmpty    (* just after [{]: a key or [}] *)
| beginString           (* after a comma in an object: a key *)
| objectColon           (* after a key: a colon *)
| endValue              (* after a value in an array or object *)
| endTop (v : JValue).  (* the top-level value is complete *)

(** The scanner refuses texts nested deeper than this. *)
Definition maxNestingDepth : N := 10000.

Definition push (f : frame) (e : expect) (stack : list frame)
  : option (expect * list frame) :=
  if N.leb (N.of_nat (List.length (f :: stack))) maxNestingDepth
  then Some (e, f :: stack) else None.

(** A complete value goes to the array or object that is open, or is the
    result when none is. *)
Definition deliver (v : JValue) (stack : list frame)
  : option (expect * list frame) :=
  match stack with
  | [] => Some (endTop v, [])
  | parseArrayValue done :: st => Some (endValue, parseArrayValue (v :: done) :: st)
  | parseObjectValue done k :: st =>
      Some (endValue, parseObjectKey ((k, v) :: done) :: st)
  | parseObjectKey _ :: _ => None
  end.

Definition startValue (t : token) (stack : list frame)
  : option (expect * list frame) :=
  match t with
  | TNull => deliver JNull stack
  | TTrue => deliver (JBool true) stack
  | TFalse => deliver (JBool false) stack
  | TNumber lit => deliver (JNumber lit) stack
  | TString s => deliver (JString s) stack
  | TLBracket => push (parseArrayValue []) beginValueOrEmpty stack
  | TLBrace => push (parseObjectKey []) beginStringOrEmpty stack
  | _ => None
  end.

Definition closeArray (stack : list frame) : option (expect * list frame) :=
  match stack with
  | parseArrayValue done :: st => deliver (JArray (List.rev done)) st
  | _ => None
  end.

Definition closeObject (stack : list frame) : option (expect * list frame) :=
  match stack with
  | parseObjectKey done :: st => deliver (JObject (List.rev done)) st
  | _ => None
  end.

Definition startKey (t : token) (stack : list frame)
  : option (expect * list frame) :=
  match t, stack with
  | TString k, parseObjectKey done :: st =>
      Some (objectColon, parseObjectValue done k :: st)
  | _, _ => None
  end.

Definition parseStep (st : expect * list frame) (t : token)
  : option (expect * list frame) :=
  let (e, stack) := st in
  match e with
  | beginValue => startValue t stack
  | beginValueOrEmpty =>
      match t with
      | TRBracket => closeArray stack
      | _ => startValue t stack
      end
  | beginStringOrEmpty =>
      match t with
      | TRBrace => closeObject stack
      | _ => startKey t stack
      end
  | beginString => startKey t stack
  | objectColon =>
      match t with
      | TColon => Some (beginValue, stack)
      | _ => None
      end
  | endValue =>
      match t, stack with
      | TComma, parseArrayValue _ :: _ => Some (beginValue, stack)
      | TComma, parseObjectKey _ :: _ => Some (beginString, stack)
      | TRBracket, _ => closeArray stack
      | TRBrace, _ => closeObject stack
      | _, _ => None
      end
  | endTop _ => None
  end.

Fixpoint parseTokens (st : expect * list frame) (ts : list token)
  : option JValue :=
  match ts with
  | [] => match st with
          | (endTop v, []) => Some v
          | _ => None
          end
  | t :: ts' =>
      match parseStep st t with
      | Some st' => parseTokens st' ts'
      | None => None
      end
  end.

(** The JSON value a text denotes; [None] is a [*json.SyntaxError]. *)
Definition parse (data : string) : option JValue :=
  match lex between data with
  | Some ts => parseTokens (beginValue, []) ts
  | None => None
  end.

(** *** Decoding into [interface{}] and [map[string]interface{}] *)

(** The dynamic values [Unmarshal] stores in an [interface{}]: [nil],
    [bool], [float64], [string], [[]interface{}] and
    [map[string]interface{}].  A [float64] is kept as the literal it was
    read from.  A map is a list of bindings with distinct keys. *)
Inductive any : Type :=
| Nil
| Bool (b : bool)
| Float64 (literal : string)
| Str (s : string)
| Slice (elements : list any)
| Map (bindings : list (string * any)).

Definition gomap : Type := list (string * any).

(** [m[k]]: the zero value [nil] when [k] is not bound, and when [m] is
    the nil map ([None]). *)
Definition index (m : option gomap) (k : string) : any :=
  match m with
  | None => Nil
  | Some bs =>
      match find (fun kv => String.eqb (fst kv) k) bs with
      | Some kv => snd kv
      | None => Nil
      end
  end.

(** [m[k] = v]. *)
Definition assign (m : gomap) (kv : string * any) : gomap :=
  kv :: filter (fun b => negb (String.eqb (fst b) (fst kv))) m.

(** The mantissa digits of a number literal as an integer, the number of
    digits after the point, and the text after the [e]. *)
Fixpoint mantissa (s : string) (m : Z) (seenDot : bool) (frac : Z)
  : Z * Z * string :=
  match s with
  | "" => (m, frac, "")
  | String c s' =>
      if isDigit c then
        mantissa s' (m * 10 + Z.of_N (hexVal c))%Z seenDot
                 (if seenDot then frac + 1 else frac)%Z
      else if Ascii.eqb c "." then mantissa s' m true frac
      else if isE c then (m, frac, s')
      else mantissa s' m seenDot frac
  end.

Fixpoint digits (s : string) (acc : Z) : Z :=
  match s with
  | "" => acc
  | String c s' => digits s' (acc * 10 + Z.of_N (hexVal c))%Z
  end.

Definition exponent (s : string) : Z :=
  match s with
  | String "-" s' => (- digits s' 0)%Z
  | String "+" s' => digits s' 0
  | _ => digits s 0
  end.

(** [strconv.ParseFloat(s, 64)] fails with [ErrRange] when the number
    rounds to an infinity: when its absolute value is at least
    [2^1024 - 2^970], half way between the largest [float64] and
    [2^1024]. *)
Definition outOfRange (literal : string) : bool :=
  let '(m, frac, e) := mantissa literal 0%Z false 0%Z in
  let e10 := (exponent e - frac)%Z in
  let bound := (2 ^ 1024 - 2 ^ 970)%Z in
  if (0 <=? e10)%Z then (bound <=? m * 10 ^ e10)%Z
  else (bound * 10 ^ (- e10) <=? m)%Z.

(** [valueInterface]: the Go value of a JSON value.  Every number is
    stored as a [float64], also one out of the range of [float64] (its error
    is saved, see [rangeError], and decoding goes on); of the members of an
    object with the same key, the last one stays. *)
Fixpoint valueInterface (v : JValue) : any :=
  match v with
  | JNull => Nil
  | JBool b => Bool b
  | JNumber lit => Float64 lit
  | JString s => Str s
  | JArray l => Slice (map valueInterface l)
  | JObject ms =>
      Map (fold_left assign
             (map (fun kv => (fst kv, valueInterface (snd kv))) ms) [])
  end.

(** Whether decoding saves an [UnmarshalTypeError] for a number. *)
Fixpoint rangeError (v : JValue) : bool :=
  match v with
  | JNumber lit => outOfRange lit
  | JArray l => existsb rangeError l
  | JObject ms => existsb (fun kv => rangeError (snd kv)) ms
  | _ => false
  end.

Definition SyntaxError : error :=
  {| Error := "invalid JSON"; dynamicType := "*json.SyntaxError" |}.
Definition UnmarshalTypeError (value : string) : error :=
  {| Error := "json: cannot unmarshal " ++ value;
     dynamicType := "*json.UnmarshalTypeError" |}.

(** [json.Unmarshal(data, &m)] for [m] of type [map[string]interface{}]:
    the map afterwards and the error returned.  The text is checked as a
    whole first; an object is stored into [m] (made when [m] is nil),
    [null] sets [m] to nil, any other value is a type error and leaves
    [m] alone.  The program only tests the error against [nil]; its text
    is not modelled. *)
Definition Unmarshal (data : string) (m : option gomap)
  : option gomap * option error :=
  match parse data with
  | None => (m, Some SyntaxError)
  | Some JNull => (None, None)
  | Some (JObject ms) =>
      (Some (fold_left assign
               (map (fun kv => (fst kv, valueInterface (snd kv))) ms)
               (match m with Some bs => bs | None => [] end)),
       if existsb (fun kv => rangeError (snd kv)) ms
       then Some (UnmarshalTypeError "number") else None)
  | Some (JArray _) => (m, Some (UnmarshalTypeError "array"))
  | Some (JString _) => (m, Some (UnmarshalTypeError "string"))
  | Some (JNumber _) => (m, Some (UnmarshalTypeError "number"))
  | Some (JBool _) => (m, Some (UnmarshalTypeError "bool"))
  end.

(** The name of the dynamic type, as a failed type assertion prints it. *)
Definition typeName (v : any) : string :=
  match v with
  | Nil => "nil"
  | Bool _ => "bool"
  | Float64 _ => "float64"
  | Str _ => "string"
  | Slice _ => "[]interface {}"
  | Map _ => "map[string]interface {}"
  end.

End json.

(* ===================================================================== *)
(** ** The world of the program: console, log and credential store *)
(* ===================================================================== *)

(** Standard input is the sequence of byte chunks that the successive reads
    of [os.Stdin] return, followed by the end of the input.  At a terminal
    a read returns one line, its line feed included.  [stdout] and [logged]
    collect the arguments of [fmt.Print] and [log.Print]; [store] is the
    persisted client library configuration and [writes] the calls of
    [ReplaceConfig], oldest first. *)
Record World : Type := mkWorld {
  stdin : list string;
  stdout : list string;
  logged : list string;
  store : diag.ConfigFile.t;
  writes : list (diag.Key * string)
}.

(** Code with effects on the world that always returns. *)
Definition ST (A : Type) : Type := World -> A * World.

Definition ret {A : Type} (a : A) : ST A := fun w => (a, w).
Definition bind {A B : Type} (m : ST A) (k : A -> ST B) : ST B :=
  fun w => let (a, w') := m w in k a w'.

Declare Scope go_scope.
Delimit Scope go_scope with go.
Notation "x <- m ;; k" := (bind m (fun x => k))
  (at level 61, m at next level, right associativity) : go_scope.
Notation "m ;; k" := (bind m (fun _ => k))
  (at level 61, right associativity) : go_scope.
Open Scope go_scope.

(** The ways a call ends: it returns, it panics, or the process exits. *)
Inductive Result (A : Type) : Type :=
| Return (a : A) (w : World)
| Panic (msg : string) (w : World)
| Exit (status : Z) (w : World).
Arguments Return {A} a w.
Arguments Panic {A} msg w.
Arguments Exit {A} status w.

Module log.
(** [log.Print(s)]. *)
Definition Print (s : string) : ST unit :=
  fun w => (tt, mkWorld (stdin w) (stdout w) (logged w ++ [s]) (store w) (writes w)).
End log.

Module fmt.
(** [fmt.Print(s)]. *)
Definition Print (s : string) : ST unit :=
  fun w => (tt, mkWorld (stdin w) (stdout w ++ [s]) (logged w) (store w) (writes w)).
End fmt.

(** [c.ReplaceConfig(key, value)] on the persisted configuration. *)
Definition ReplaceConfig (k : diag.Key) (v : string) : ST unit :=
  fun w => (tt, mkWorld (stdin w) (stdout w) (logged w)
                        (diag.ConfigFile.ReplaceConfig k v (store w))
                        (writes w ++ [(k, v)])).

Module io.
Definition EOF : error := {| Error := "EOF"; dynamicType := "*errors.errorString" |}.
End io.

Module bufio.

(** A [*bufio.Reader] on [os.Stdin]: the bytes it has read from the input
    and not handed out yet. *)
Record Reader : Type := mkReader { buf : string }.

(** [bufio.NewReader(os.Stdin)]. *)
Definition NewReader : Reader := mkReader "".

(** The string up to and including the first [delim], and what follows. *)
Fixpoint splitAfter (delim : ascii) (s : string) : option (string * string) :=
  match s with
  | "" => None
  | String c s' =>
      if Ascii.eqb c delim then Some (String c "", s')
      else match splitAfter delim s' with
           | Some (line, rest) => Some (String c line, rest)
           | None => None
           end
  end.

(** The reader fills its buffer, one read of the input at a time, until
    the buffer holds [delim] or the input ends. *)
Fixpoint readUntil (delim : ascii) (buffered : string) (input : list string)
  : string * option error * string * list string :=
  match splitAfter delim buffered with
  | Some (line, rest) => (line, None, rest, input)
  | None =>
      match input with
      | [] => (buffered, Some io.EOF, "", [])
      | chunk :: input' => readUntil delim (buffered ++ chunk) input'
      end
  end.

(** [reader.ReadString(delim)]: the line, the error, and the reader
    afterwards. *)
Definition ReadString (r : Reader) (delim : ascii)
  : ST (string * option error * Reader) :=
  fun w =>
    let '(line, err, rest, input') := readUntil delim (buf r) (stdin w) in
    ((line, err, mkReader rest),
     mkWorld input' (stdout w) (logged w) (store w) (writes w)).

End bufio.

(* ===================================================================== *)
(** ** Package [oauth]: constants, configuration and the classifier *)
(* ===================================================================== *)

(** The error codes of the [const ( ... = iota ... )] block. *)
Inductive DiagnosticCode : Type :=
| AccessNotPermittedForManagerAccount
| GoogleAdsAPIDisabled
| InvalidClientInfo
| InvalidRefreshToken
| InvalidCustomerID
| MissingDevToken
| Unauthenticated
| Unauthorized
| UnknownError.

(** The [int32] value [iota] gives each constant. *)
Definition iota (d : DiagnosticCode) : Z :=
  match d with
  | AccessNotPermittedForManagerAccount => 0
  | GoogleAdsAPIDisabled => 1
  | InvalidClientInfo => 2
  | InvalidRefreshToken => 3
  | InvalidCustomerID => 4
  | MissingDevToken => 5
  | Unauthenticated => 6
  | Unauthorized => 7
  | UnknownError => 8
  end%Z.

Definition Web : string := "web".
Definition InstalledApp : string := "installed_app".

Record Config : Type := mkConfig {
  ConfigFile : diag.ConfigFile.t;
  CustomerID : string;
  OAuthType : string;
  Verbose : bool
}.

(** [decodeError]: the cascade of [strings.Contains] tests on [err.Error()],
    in the order of the source. *)
Definition decodeError (c : Config) (err : error) : DiagnosticCode :=
  let errstr := Error err in
  if strings.Contains errstr "invalid_client" then InvalidClientInfo
  else if strings.Contains errstr "unauthorized_client" then Unauthorized
  else if strings.Contains errstr "invalid_grant" then InvalidRefreshToken
  else if strings.Contains errstr "refresh token is not set" then InvalidRefreshToken
  else if strings.Contains errstr "USER_PERMISSION_DENIED" then InvalidRefreshToken
  else if strings.Contains errstr (quoted "PERMISSION_DENIED") then GoogleAdsAPIDisabled
  else if strings.Contains errstr "UNAUTHENTICATED" then Unauthenticated
  else if strings.Contains errstr "CANNOT_BE_EXECUTED_BY_MANAGER_ACCOUNT"
       then AccessNotPermittedForManagerAccount
  else if strings.Contains errstr "DEVELOPER_TOKEN_PARAMETER_MISSING" then MissingDevToken
  else if strings.Contains errstr "INVALID_CUSTOMER_ID" then InvalidCustomerID
  else UnknownError.

(** The ten patterns [decodeError] looks for, in the order it tests them. *)
Definition patterns : list string :=
  [ "invalid_client"; "unauthorized_client"; "invalid_grant";
    "refresh token is not set"; "USER_PERMISSION_DENIED";
    quoted "PERMISSION_DENIED"; "UNAUTHENTICATED";
    "CANNOT_BE_EXECUTED_BY_MANAGER_ACCOUNT";
    "DEVELOPER_TOKEN_PARAMETER_MISSING"; "INVALID_CUSTOMER_ID" ].

(** The mapping table of the specification, read as an ordered list of
    (pattern, code) pairs in which the first pattern found wins. *)
Definition mappingTable : list (string * DiagnosticCode) :=
  [ ("invalid_client", InvalidClientInfo);
    ("unauthorized_client", Unauthorized);
    ("invalid_grant", InvalidRefreshToken);
    ("refresh token is not set", InvalidRefreshToken);
    ("USER_PERMISSION_DENIED", InvalidRefreshToken);
    (quoted "PERMISSION_DENIED", GoogleAdsAPIDisabled);
    ("UNAUTHENTICATED", Unauthenticated);
    ("CANNOT_BE_EXECUTED_BY_MANAGER_ACCOUNT", AccessNotPermittedForManagerAccount);
    ("DEVELOPER_TOKEN_PARAMETER_MISSING", MissingDevToken);
    ("INVALID_CUSTOMER_ID", InvalidCustomerID) ].

Definition classify (text : string) : DiagnosticCode :=
  match find (fun row => strings.Contains text (fst row)) mappingTable with
  | Some row => snd row
  | None => UnknownError
  end.

(** The patterns as the table of the specification prints them, the sixth
    without its quotes. *)
Definition listedPatterns : list string :=
  [ "invalid_client"; "unauthorized_client"; "invalid_grant";
    "refresh token is not set"; "USER_PERMISSION_DENIED";
    "PERMISSION_DENIED"; "UNAUTHENTICATED";
    "CANNOT_BE_EXECUTED_BY_MANAGER_ACCOUNT";
    "DEVELOPER_TOKEN_PARAMETER_MISSING"; "INVALID_CUSTOMER_ID" ].


(* ===================================================================== *)
(** ** Package [oauth]: remediation *)
(* ===================================================================== *)

(** [replaceCloudCredentials]. *)
Definition replaceCloudCredentials (c : diag.ConfigFile.t) : ST unit :=
  log.Print ("Follow this guide to setup your OAuth2 client ID " ++
             "and client secret: " ++
             "https://developers.google.com/adwords/api/docs/guides/first-api-call#set_up_oauth2_authentication") ;;
  fmt.Print "New Client ID >> " ;;
  let reader := bufio.NewReader in
  r <- bufio.ReadString reader LF ;;
  let input := fst (fst r) in
  let clientID := strings.Replace input nl "" (-1) in
  fmt.Print "New Client Secret >> " ;;
  let reader := bufio.NewReader in
  r <- bufio.ReadString reader LF ;;
  let input := fst (fst r) in
  let clientSecret := strings.Replace input nl "" (-1) in
  ReplaceConfig diag.ClientID clientID ;;
  ReplaceConfig diag.ClientSecret clientSecret.

(** [replaceDevToken]. *)
Definition replaceDevToken (c : diag.ConfigFile.t) : ST unit :=
  log.Print ("Please follow this guide to retrieve your developer token: " ++
             "https://developers.google.com/adwords/api/docs/guides/signup#step-2") ;;
  log.Print ("Pleae enter a new Developer Token here and it will replace " ++
             "the one in your client library configuration file") ;;
  fmt.Print "New Developer Token >> " ;;
  let reader := bufio.NewReader in
  r <- bufio.ReadString reader LF ;;
  let input := fst (fst r) in
  let devToken := strings.Replace input nl "" (-1) in
  ReplaceConfig diag.DevToken devToken.

(** [replaceRefreshToken]. *)
Definition replaceRefreshToken (c : diag.ConfigFile.t) (refreshToken : string)
  : ST unit :=
  log.Print ("Would you like to replace your refresh token in the " ++
             "client library config file with the new one generated?") ;;
  fmt.Print "Enter Y for Yes [Anything else is No] >> " ;;
  let reader := bufio.NewReader in
  r <- bufio.ReadString reader LF ;;
  let answer := fst (fst r) in
  let answer := strings.Replace answer nl "" (-1) in
  if String.eqb answer "Y"
  then ReplaceConfig diag.RefreshToken refreshToken
  else log.Print "Refresh token is NOT replaced".

(** The [switch] of [diagnose]: the action for an error code. *)
Definition remediate (c : Config) (code : DiagnosticCode) : ST unit :=
  match code with
  | AccessNotPermittedForManagerAccount =>
      log.Print ("ERROR: Your credentials are not sufficient to access to a " ++
                 "manager account." ++ nl ++
                 "Please login with a Google Ads account with manager access.")
  | GoogleAdsAPIDisabled =>
      log.Print "Press <Enter> to continue after you enable Google Ads API" ;;
      let reader := bufio.NewReader in
      _ <- bufio.ReadString reader LF ;;
      ret tt
  | InvalidClientInfo =>
      log.Print "ERROR: Your client ID and/or secret may be invalid." ;;
      replaceCloudCredentials (ConfigFile c)
  | InvalidRefreshToken | Unauthorized =>
      log.Print "ERROR: Your refresh token may be invalid."
  | MissingDevToken =>
      log.Print "ERROR: Your developer token is missing in the configuration file" ;;
      replaceDevToken (ConfigFile c)
  | Unauthenticated =>
      log.Print "ERROR: The login email may not have access to the given account."
  | InvalidCustomerID =>
      log.Print "ERROR: You customer ID is invalid."
  | UnknownError =>
      log.Print ("ERROR: Your credentials are invalid but we cannot determine " ++
                 "the exact error. Please verify your developer token, client ID, " ++
                 "client secret and refresh token.")
  end.

(** A type assertion [v.(T)] without the comma-ok form panics when the
    dynamic type of [v] is not [T]. *)
Definition conversionPanic (v : json.any) (want : string) : string :=
  "interface conversion: interface {} is " ++ json.typeName v ++ ", not " ++ want.

(** The first statement of [diagnose]: when the text of the error is JSON,
    the message of its [error] member is logged. *)
Definition surfaceMessage (err : error) (w : World) : Result unit :=
  let parsedMsg : option json.gomap := None in
  let (parsedMsg, jsonErr) := json.Unmarshal (Error err) parsedMsg in
  match jsonErr with
  | None =>
      match json.index parsedMsg "error" with
      | json.Map inner =>
          let errMsg := json.index (Some inner) "message" in
          match errMsg with
          | json.Str msg =>
              Return tt (snd (log.Print ("JSON response error: " ++ msg) w))
          | _ => Panic (conversionPanic errMsg "string") w
          end
      | v => Panic (conversionPanic v "map[string]interface {}") w
      end
  | Some _ => Return tt w
  end.

(** [diagnose]. *)
Definition diagnose (c : Config) (err : error) (w : World) : Result unit :=
  match surfaceMessage err w with
  | Return _ w1 =>
      let (_, w2) := remediate c (decodeError c err) w1 in Return tt w2
  | Panic msg w1 => Panic msg w1
  | Exit status w1 => Exit status w1
  end.

(* ===================================================================== *)
(** ** Packages [net/http] and [golang.org/x/oauth2] *)
(* ===================================================================== *)

Module http.

Record Request : Type := mkRequest {
  Method : string;
  URL : string;
  Header : list (string * string)
}.

Record Response : Type := mkResponse {
  StatusCode : Z;
  Body : string
}.

(** A [*http.Client], seen through [client.Do(req)]: the response, or
    the error of the transport. *)
Definition Client : Type := Request -> error + Response.

(** [req.Header.Set(key, value)].  Header names are kept as the program
    writes them; the library compares them without regard to case. *)
Definition Header_Set (key value : string) (req : Request) : Request :=
  mkRequest (Method req) (URL req)
            ((key, value)
               :: filter (fun kv => negb (String.eqb (fst kv) key)) (Header req)).

End http.

Module oauth2.

Record Endpoint : Type := mkEndpoint { AuthURL : string; TokenURL : string }.

Record Config : Type := mkConfig {
  ClientID : string;
  ClientSecret : string;
  RedirectURL : string;
  Scopes : list string;
  Endpoint_ : Endpoint
}.

Record Token : Type := mkToken {
  AccessToken : string;
  RefreshToken : string
}.

End oauth2.

Module google.
(** [google.Endpoint]. *)
Definition Endpoint : oauth2.Endpoint :=
  oauth2.mkEndpoint "https://accounts.google.com/o/oauth2/auth"
                    "https://oauth2.googleapis.com/token".
End google.

(** [oauth2Conf]. *)
Definition oauth2Conf (c : Config) (redirectURL : string) : oauth2.Config :=
  oauth2.mkConfig (diag.ConfigFile.ClientID (ConfigFile c))
                  (diag.ConfigFile.ClientSecret (ConfigFile c))
                  redirectURL
                  ["https://www.googleapis.com/auth/adwords"]
                  google.Endpoint.

Section Network.

(** What lies behind the network boundary: the token endpoint behind
    [conf.Exchange], the authorized client [conf.Client] builds from a
    token, and the constant [InstalledAppRedirectURL], which the package
    declares outside [helper.go]. *)
Variable Exchange : oauth2.Config -> string -> error + oauth2.Token.
Variable authorizedClient : oauth2.Config -> oauth2.Token -> http.Client.
Variable InstalledAppRedirectURL : string.

(** Whether [url.Parse] accepts a URL.  [http.NewRequest] returns a nil
    request and an error when it does not. *)
Variable urlParses : string -> bool.

Definition NewRequest (method url : string) : option http.Request :=
  if urlParses url then Some (http.mkRequest method url []) else None.

(** [oauth2Client]: [log.Fatal] logs the error and exits with status 1. *)
Definition oauth2Client (c : Config) (code : string) (w : World)
  : Result (http.Client * string) :=
  let conf := oauth2Conf c InstalledAppRedirectURL in
  match Exchange conf code with
  | inl err => Exit 1 (snd (log.Print (Error err) w))
  | inr token => Return (authorizedClient conf token, oauth2.RefreshToken token) w
  end.

Definition nilDereference : string :=
  "runtime error: invalid memory address or nil pointer dereference".

(** [getAccount].  The error of [http.NewRequest] is dropped, so a nil
    request reaches [req.Header.Set]; the error of [json.Unmarshal] is
    dropped as well. *)
Definition getAccount (c : Config) (client : http.Client) (w : World)
  : Result (error + string) :=
  match NewRequest "GET"
          ("https://googleads.googleapis.com/v1/customers/" ++ CustomerID c) with
  | None => Panic nilDereference w
  | Some req =>
      let req := http.Header_Set "developer-token"
                   (diag.ConfigFile.DevToken (ConfigFile c)) req in
      let req :=
        if negb (String.eqb (diag.ConfigFile.LoginCustomerID (ConfigFile c)) "")
        then http.Header_Set "login-customer-id"
               (diag.ConfigFile.LoginCustomerID (ConfigFile c)) req
        else req in
      match client req with
      | inl err => Return (inl err) w
      | inr resp =>
          let buf := http.Body resp in
          let jsonBody : option json.gomap := None in
          let (jsonBody, _) := json.Unmarshal buf jsonBody in
          match json.index jsonBody "error" with
          | json.Nil => Return (inr buf) w
          | _ => Return (inl (errors.New buf)) w
          end
      end
  end.

End Network.

(* ===================================================================== *)
(** ** [ReadCustomerID] *)
(* ===================================================================== *)

(** The [for] loop of [ReadCustomerID], with one reader for all its turns.
    [fuel] bounds the number of turns; [None] means the bound was reached
    before the loop returned. *)
Fixpoint ReadCustomerID_loop (fuel : nat) (reader : bufio.Reader) (w : World)
  : option (string * World) :=
  match fuel with
  | O => None
  | S fuel' =>
      let (_, w1) := log.Print "Please enter a Google Ads account ID:" w in
      let '(r, w2) := bufio.ReadString reader LF w1 in
      let '(customerID, _, reader') := r in
      let customerID :=
        strings.TrimSpace (strings.Replace customerID nl "" (-1)) in
      if negb (String.eqb customerID "")
      then Some (strings.Replace customerID "-" "" (-1), w2)
      else ReadCustomerID_loop fuel' reader' w2
  end.

Definition ReadCustomerID (fuel : nat) (w : World) : option (string * World) :=
  let reader := bufio.NewReader in
  ReadCustomerID_loop fuel reader w.

(* ===================================================================== *)
(** ** Sample values used in the examples *)
(* ===================================================================== *)

Definition sampleStore : diag.ConfigFile.t :=
  diag.ConfigFile.mk "old-id.apps.googleusercontent.com" "old-secret"
                     "dev-token" "1//old-refresh-token" "9876543210".

Definition sampleConfig : Config := mkConfig sampleStore "1234567890" InstalledApp false.

(** A world whose console input is [input] and in which nothing was printed
    or written yet. *)
Definition sampleWorld (input : list string) : World :=
  mkWorld input [] [] sampleStore [].

(* ===================================================================== *)
(** ** Notions used to state the properties *)
(* ===================================================================== *)

(** [s] without the bytes equal to [b]. *)
Fixpoint deleteByte (b : ascii) (s : string) : string :=
  match s with
  | "" => ""
  | String c s' => if Ascii.eqb c b then deleteByte b s' else String c (deleteByte b s')
  end.

(** The line a new reader gets from the console by [ReadString(LF)]. *)
Definition consoleLine (w : World) : string :=
  fst (fst (fst (bufio.readUntil LF "" (stdin w)))).

(** The operator types lines at a terminal: every read of the console
    returns one line, ended by its line feed. *)
Definition typed (lines : list string) : list string :=
  map (fun l => l ++ nl) lines.

(** The members of the object a response body denotes; none when the body
    is not the text of a JSON object. *)
Definition topLevelMembers (body : string) : list (string * json.JValue) :=
  match json.parse body with
  | Some (json.JObject ms) => ms
  | _ => []
  end.

(** The body has a top-level member named [error]. *)
Definition hasTopLevelError (body : string) : bool :=
  existsb (fun kv => String.eqb (fst kv) "error") (topLevelMembers body).

(** The value of the last member named [k]. *)
Fixpoint lastMember {A : Type} (k : string) (ms : list (string * A)) : option A :=
  match ms with
  | [] => None
  | kv :: ms' =>
      match lastMember k ms' with
      | Some v => Some v
      | None => if String.eqb (fst kv) k then Some (snd kv) else None
      end
  end.

(** The JSON value that is decoded to the nil interface: [null]. *)
Definition decodesToNil (v : json.JValue) : bool :=
  match v with
  | json.JNull => true
  | _ => false
  end.

(** The body is a JSON object whose last top-level [error] member is not
    decoded to nil. *)
Definition reportsError (body : string) : bool :=
  match lastMember "error" (topLevelMembers body) with
  | Some v => negb (decodesToNil v)
  | None => false
  end.

(** The URL of the account endpoint for the customer of a configuration. *)
Definition accountURL (c : Config) : string :=
  "https://googleads.googleapis.com/v1/customers/" ++ CustomerID c.

(** The world after one more prompt of [ReadCustomerID], with [input] left
    to read. *)
Definition prompted (w : World) (input : list string) : World :=
  mkWorld input (stdout w)
          (logged w ++ ["Please enter a Google Ads account ID:"])%list
          (store w) (writes w).

(** The place, in the order of the tests, of the first of the patterns [ps]
    that [text] contains; the number of patterns when it contains none. *)
Fixpoint firstMatch (text : string) (ps : list string) : nat :=
  match ps with
  | [] => 0
  | p :: ps' => if strings.Contains text p then 0 else S (firstMatch text ps')
  end.

Definition rank (text : string) : nat := firstMatch text patterns.

(** The code [decodeError] returns at each place of its cascade. *)
Definition codeAt (n : nat) : DiagnosticCode :=
  nth n [ InvalidClientInfo; Unauthorized; InvalidRefreshToken;
          InvalidRefreshToken; InvalidRefreshToken; GoogleAdsAPIDisabled;
          Unauthenticated; AccessNotPermittedForManagerAccount;
          MissingDevToken; InvalidCustomerID ] UnknownError.

(** The fields the action for a code writes, in the order of the writes. *)
Definition rewrittenKeys (code : DiagnosticCode) : list diag.Key :=
  match code with
  | InvalidClientInfo => [diag.ClientID; diag.ClientSecret]
  | MissingDevToken => [diag.DevToken]
  | _ => []
  end.

(** The store after a sequence of writes. *)
Definition applyWrites (ws : list (diag.Key * string)) (st : diag.ConfigFile.t)
  : diag.ConfigFile.t :=
  fold_left (fun st kv => diag.ConfigFile.ReplaceConfig (fst kv) (snd kv) st) ws st.

(** The bytes of the console input, whatever the reads that bring them. *)
Definition stream (chunks : list string) : string :=
  fold_right append "" chunks.

(** The world with another console input. *)
Definition withInput (input : list string) (w : World) : World :=
  mkWorld input (stdout w) (logged w) (store w) (writes w).

(** [json.Unmarshal] of the text into a map returns no error: the text is
    [null], or an object without a number out of the range of [float64]. *)
Definition decodable (text : string) : bool :=
  match json.parse text with
  | Some json.JNull => true
  | Some (json.JObject ms) => negb (existsb (fun kv => json.rangeError (snd kv)) ms)
  | _ => false
  end.

(** The string under [error.message] of a JSON text: the last [message]
    member of the object that is the last top-level [error] member. *)
Definition errorMessage (text : string) : option string :=
  match lastMember "error" (topLevelMembers text) with
  | Some (json.JObject inner) =>
      match lastMember "message" inner with
      | Some (json.JString m) => Some m
      | _ => None
      end
  | _ => None
  end.

(** The request of the account probe: the developer token always, the
    login customer ID when it is not empty. *)
Definition accountRequest (c : Config) : http.Request :=
  http.mkRequest "GET" (accountURL c)
    (if String.eqb (diag.ConfigFile.LoginCustomerID (ConfigFile c)) ""
     then [("developer-token", diag.ConfigFile.DevToken (ConfigFile c))]
     else [("login-customer-id", diag.ConfigFile.LoginCustomerID (ConfigFile c));
           ("developer-token", diag.ConfigFile.DevToken (ConfigFile c))]).

(** The error codes whose action only reports. *)
Definition reportingCodes : list DiagnosticCode :=
  [ AccessNotPermittedForManagerAccount; InvalidRefreshToken; Unauthorized;
    Unauthenticated; InvalidCustomerID; UnknownError; GoogleAdsAPIDisabled ].

(* ===================================================================== *)
(** * Properties *)
(* ===================================================================== *)

(** ** Facts about [strings] *)

Section StringFacts.

Lemma append_assoc (a b c : string) : (a ++ b) ++ c = a ++ (b ++ c).
Proof. induction a as [|x a IH]; simpl; [reflexivity | now rewrite IH]. Qed.

Lemma append_empty_r (a : string) : a ++ "" = a.
Proof. induction a as [|x a IH]; simpl; [reflexivity | now rewrite IH]. Qed.

Lemma HasPrefix_spec (s p : string) :
  strings.HasPrefix s p = true <-> exists q, s = p ++ q.
Proof.
  revert s. induction p as [|x p IH]; intros s; simpl.
  - split; [intros _; now exists s | reflexivity].
  - destruct s as [|c s]; simpl.
    + split; [discriminate | intros [q Hq]; discriminate].
    + rewrite andb_true_iff, Ascii.eqb_eq, IH. split.
      * intros [-> [q ->]]. now exists q.
      * intros [q Hq]. injection Hq as -> ->. split; [reflexivity | now exists q].
Qed.

Lemma Contains_spec (s sub : string) :
  strings.Contains s sub = true <-> exists p q, s = p ++ sub ++ q.
Proof.
  induction s as [|c s IH].
  - simpl. rewrite orb_false_r, HasPrefix_spec. split.
    + intros [q Hq]. now exists "", q.
    + intros [p [q Hq]]. destruct p; [now exists q | discriminate].
  - change (strings.Contains (String c s) sub)
      with (strings.HasPrefix (String c s) sub || strings.Contains s sub).
    rewrite orb_true_iff, HasPrefix_spec, IH. split.
    + intros [[q Hq] | [p [q Hq]]].
      * now exists "", q.
      * exists (String c p), q. simpl. now rewrite Hq.
    + intros [p [q Hq]]. destruct p as [|x p]; simpl in Hq.
      * left. now exists q.
      * right. injection Hq as _ Hq. now exists p, q.
Qed.

(** A text that contains a string contains every part of it. *)
Lemma Contains_part (s a b c : string) :
  strings.Contains s (a ++ b ++ c) = true -> strings.Contains s b = true.
Proof.
  rewrite !Contains_spec. intros [p [q ->]].
  exists (p ++ a), (c ++ q). now rewrite !append_assoc.
Qed.

Lemma not_Contains_part (s a b c : string) :
  strings.Contains s b = false -> strings.Contains s (a ++ b ++ c) = false.
Proof.
  intros H. destruct (strings.Contains s (a ++ b ++ c)) eqn:E; [|reflexivity].
  apply Contains_part in E. congruence.
Qed.

Lemma Contains_quoted (s b : string) :
  strings.Contains s (quoted b) = true -> strings.Contains s b = true.
Proof. apply (Contains_part s (String dquote "") b (String dquote "")). Qed.

Lemma not_Contains_quoted (s b : string) :
  strings.Contains s b = false -> strings.Contains s (quoted b) = false.
Proof. apply (not_Contains_part s (String dquote "") b (String dquote "")). Qed.

End StringFacts.

(** ** The console *)

Section ConsoleFacts.

Lemma Contains_byte_cons (c b : ascii) (s : string) :
  strings.Contains (String c s) (String b "") =
  (Ascii.eqb c b || strings.Contains s (String b ""))%bool.
Proof.
  change (strings.Contains (String c s) (String b ""))
    with (strings.HasPrefix (String c s) (String b "")
          || strings.Contains s (String b "")).
  simpl. now rewrite andb_true_r.
Qed.

Lemma Replace_byte (b : ascii) (s : string) :
  strings.Replace s (String b "") "" (-1) = deleteByte b s.
Proof.
  unfold strings.Replace. cbn [String.eqb orb Z.eqb Z.ltb Z.compare].
  induction s as [|c s IH]; [reflexivity|].
  cbn [strings.replaceScan strings.HasPrefix deleteByte String.length Nat.sub].
  rewrite andb_true_r. destruct (Ascii.eqb c b); cbn [append]; now rewrite IH.
Qed.

Lemma deleteByte_absent (b : ascii) (s : string) :
  strings.Contains s (String b "") = false -> deleteByte b s = s.
Proof.
  induction s as [|c s IH]; [reflexivity|].
  rewrite Contains_byte_cons, orb_false_iff. intros [E H].
  simpl. rewrite E. now rewrite IH.
Qed.

Lemma deleteByte_append (b : ascii) (s t : string) :
  deleteByte b (s ++ t) = deleteByte b s ++ deleteByte b t.
Proof.
  induction s as [|c s IH]; [reflexivity|].
  simpl. destruct (Ascii.eqb c b); simpl; now rewrite IH.
Qed.

(** Stripping the line feeds of a typed line gives the line back. *)
Lemma strip_typed_line (l : string) :
  strings.Contains l nl = false -> strings.Replace (l ++ nl) nl "" (-1) = l.
Proof.
  intros H. unfold nl. rewrite Replace_byte, deleteByte_append.
  rewrite (deleteByte_absent _ _ H).
  change (deleteByte LF (String LF "")) with "".
  apply append_empty_r.
Qed.

Lemma splitAfter_line (l rest : string) :
  strings.Contains l nl = false ->
  bufio.splitAfter LF (l ++ String LF rest) = Some (l ++ nl, rest).
Proof.
  unfold nl. induction l as [|c l IH]; intros H.
  - reflexivity.
  - rewrite Contains_byte_cons, orb_false_iff in H. destruct H as [E H].
    simpl. rewrite E, (IH H). reflexivity.
Qed.

Lemma readUntil_unfold (d : ascii) (b : string) (input : list string) :
  bufio.readUntil d b input =
  match bufio.splitAfter d b with
  | Some (line, rest) => (line, None, rest, input)
  | None =>
      match input with
      | [] => (b, Some io.EOF, "", [])
      | chunk :: input' => bufio.readUntil d (b ++ chunk) input'
      end
  end.
Proof. destruct input; reflexivity. Qed.

(** A new reader, or one whose buffer is empty, gets a typed line whole and
    keeps nothing. *)
Lemma readUntil_typed (l : string) (rest : list string) :
  strings.Contains l nl = false ->
  bufio.readUntil LF "" ((l ++ nl) :: rest) = (l ++ nl, None, "", rest).
Proof.
  intros H. rewrite readUntil_unfold. cbn [bufio.splitAfter append].
  rewrite readUntil_unfold. unfold nl at 1.
  now rewrite (splitAfter_line l "" H).
Qed.

Lemma consoleLine_typed (w : World) (l : string) (rest : list string) :
  strings.Contains l nl = false ->
  stdin w = (l ++ nl) :: rest ->
  strings.Replace (consoleLine w) nl "" (-1) = l.
Proof.
  intros H E. unfold consoleLine. rewrite E, (readUntil_typed l rest H).
  now apply strip_typed_line.
Qed.

End ConsoleFacts.

(** ** The classifier *)

Lemma iota_injective (a b : DiagnosticCode) : iota a = iota b -> a = b.
Proof. destruct a, b; (reflexivity || discriminate). Qed.

Section Classifier.

Variable c : Config.

(** The cascade of [decodeError] is the first-match reading of the mapping
    table. *)
Lemma decodeError_classify (err : error) :
  decodeError c err = classify (Error err).
Proof.
  unfold decodeError, classify, mappingTable. cbn [find fst snd].
  repeat match goal with
         | |- context [if ?b then _ else _] => destruct b; [reflexivity|]
         end.
  reflexivity.
Qed.

Lemma decodeError_no_pattern (err : error) :
  Forall (fun p => strings.Contains (Error err) p = false) patterns ->
  decodeError c err = UnknownError.
Proof.
  unfold patterns. intros H.
  repeat match goal with
         | H : Forall _ (_ :: _) |- _ =>
             let E := fresh "E" in
             apply Forall_cons_iff in H; destruct H as [E H]
         end.
  unfold decodeError.
  repeat match goal with E : strings.Contains _ _ = false |- _ =>
                           rewrite E; clear E end.
  reflexivity.
Qed.

(** Without one of the earlier two patterns, [invalid_grant] decides. *)
Lemma decodeError_invalid_grant (err : error) :
  strings.Contains (Error err) "invalid_client" = false ->
  strings.Contains (Error err) "unauthorized_client" = false ->
  strings.Contains (Error err) "invalid_grant" = true ->
  decodeError c err = InvalidRefreshToken.
Proof. intros H1 H2 H3. unfold decodeError. now rewrite H1, H2, H3. Qed.

(** A text with one of the first five patterns never reaches the test for
    the quoted [PERMISSION_DENIED]. *)
Lemma decodeError_early_pattern (err : error) (p : string) :
  In p (firstn 5 patterns) ->
  strings.Contains (Error err) p = true ->
  decodeError c err <> GoogleAdsAPIDisabled.
Proof.
  intros Hin Hp. unfold decodeError.
  repeat match goal with
         | |- (if ?b then _ else _) <> _ =>
             destruct b eqn:?; [discriminate|]
         end.
  cbn in Hin. repeat destruct Hin as [<- | Hin]; congruence || contradiction.
Qed.

End Classifier.

(** C1. [decodeError] is total and deterministic: every error has exactly
    one diagnostic code, the code depends on the text of the error only (not
    on the configuration and not on the kind of error value), and a text
    that contains none of the ten patterns has code [UnknownError], both for
    the patterns as the program tests them and for the patterns as the
    mapping table lists them. *)
Theorem decodeError_total_deterministic :
  (forall c err, exists! d, decodeError c err = d) /\
  (forall c1 c2 e1 e2, Error e1 = Error e2 -> decodeError c1 e1 = decodeError c2 e2) /\
  (forall c err,
      Forall (fun p => strings.Contains (Error err) p = false) patterns ->
      decodeError c err = UnknownError) /\
  (forall c err,
      Forall (fun p => strings.Contains (Error err) p = false) listedPatterns ->
      decodeError c err = UnknownError).
Proof.
  split; [|split; [|split]].
  - intros c err. exists (decodeError c err). split; [reflexivity | auto].
  - intros c1 c2 e1 e2 H. rewrite !decodeError_classify. now rewrite H.
  - apply decodeError_no_pattern.
  - intros c err H. apply decodeError_no_pattern.
    unfold listedPatterns in H. unfold patterns.
    repeat match goal with
           | H : Forall _ (_ :: _) |- _ =>
               let E := fresh "E" in
               apply Forall_cons_iff in H; destruct H as [E H]
           end.
    repeat (apply Forall_cons;
            [assumption || (apply not_Contains_quoted; assumption)|]).
    constructor.
Qed.

Lemma decodeError_total_deterministic_witness :
  decodeError sampleConfig (errors.New "dial tcp: connection refused") = UnknownError.
Proof.
  apply (proj1 (proj2 (proj2 decodeError_total_deterministic))).
  repeat constructor.
Defined.

(** C2, as stated, fails: a text with [invalid_grant] and
    [PERMISSION_DENIED] that also has the earlier pattern [invalid_client]
    is classified [InvalidClientInfo]. *)
Lemma precedence_counterexample :
  let err := errors.New "invalid_client: invalid_grant PERMISSION_DENIED" in
  strings.Contains (Error err) "invalid_grant" = true /\
  strings.Contains (Error err) "PERMISSION_DENIED" = true /\
  decodeError sampleConfig err = InvalidClientInfo /\
  decodeError sampleConfig err <> InvalidRefreshToken.
Proof. repeat split. discriminate. Qed.

(** C2, amended.  A text with both [invalid_grant] and [PERMISSION_DENIED]
    is never classified [GoogleAdsAPIDisabled], and it is classified
    [InvalidRefreshToken] when it has neither [invalid_client] nor
    [unauthorized_client]. *)
Theorem precedence_invalid_grant (c : Config) (err : error) :
  strings.Contains (Error err) "invalid_grant" = true ->
  strings.Contains (Error err) "PERMISSION_DENIED" = true ->
  decodeError c err <> GoogleAdsAPIDisabled /\
  (strings.Contains (Error err) "invalid_client" = false ->
   strings.Contains (Error err) "unauthorized_client" = false ->
   decodeError c err = InvalidRefreshToken).
Proof.
  intros Hg _. split.
  - apply (decodeError_early_pattern c err "invalid_grant"); [cbn; tauto | exact Hg].
  - intros H1 H2. now apply decodeError_invalid_grant.
Qed.

Lemma precedence_invalid_grant_witness :
  let err := errors.New (js "{'error':'invalid_grant','status':'PERMISSION_DENIED'}") in
  decodeError sampleConfig err <> GoogleAdsAPIDisabled /\
  decodeError sampleConfig err = InvalidRefreshToken.
Proof.
  intros err.
  destruct (precedence_invalid_grant sampleConfig err) as [H1 H2];
    [reflexivity | reflexivity |].
  split; [exact H1 | apply H2; reflexivity].
Defined.

(** C3. A text with [refresh token is not set] or with
    [USER_PERMISSION_DENIED], and with none of the three earlier patterns,
    is classified [InvalidRefreshToken]; and a text with the quoted
    ["USER_PERMISSION_DENIED"] is never classified [GoogleAdsAPIDisabled]. *)
Theorem refresh_token_patterns_first (c : Config) (err : error) :
  (strings.Contains (Error err) "refresh token is not set" = true \/
   strings.Contains (Error err) "USER_PERMISSION_DENIED" = true ->
   strings.Contains (Error err) "invalid_client" = false ->
   strings.Contains (Error err) "unauthorized_client" = false ->
   strings.Contains (Error err) "invalid_grant" = false ->
   decodeError c err = InvalidRefreshToken) /\
  (strings.Contains (Error err) (quoted "USER_PERMISSION_DENIED") = true ->
   decodeError c err <> GoogleAdsAPIDisabled).
Proof.
  split.
  - intros H H1 H2 H3. unfold decodeError. rewrite H1, H2, H3.
    destruct H as [H | H]; rewrite H; [reflexivity|].
    now destruct (strings.Contains (Error err) "refresh token is not set").
  - intros H. apply Contains_quoted in H.
    apply (decodeError_early_pattern c err "USER_PERMISSION_DENIED");
      [cbn; tauto | exact H].
Qed.

Lemma refresh_token_patterns_first_witness :
  let err := errors.New (js
    "{'error':{'code':403,'message':'The caller does not have permission','status':'PERMISSION_DENIED','details':[{'errors':[{'errorCode':{'authorizationError':'USER_PERMISSION_DENIED'}}]}]}}") in
  strings.Contains (Error err) (quoted "PERMISSION_DENIED") = true /\
  decodeError sampleConfig err = InvalidRefreshToken /\
  decodeError sampleConfig err <> GoogleAdsAPIDisabled.
Proof.
  intros err.
  destruct (refresh_token_patterns_first sampleConfig err) as [H1 H2].
  split; [reflexivity|]. split.
  - apply H1; [right|..]; reflexivity.
  - apply H2. reflexivity.
Defined.

(** ** Remediation and the credential store *)

Section Remediation.

Lemma app_one_neq {A : Type} (l : list A) (x : A) : (l ++ [x])%list <> l.
Proof.
  intros H. apply (f_equal (@List.length A)) in H.
  rewrite length_app in H. simpl in H. lia.
Qed.

(** What [replaceRefreshToken] does, by the answer read. *)
Lemma replaceRefreshToken_run (cf : diag.ConfigFile.t) (tok : string) (w : World) :
  let answer := strings.Replace (consoleLine w) nl "" (-1) in
  let w' := snd (replaceRefreshToken cf tok w) in
  store w' = (if String.eqb answer "Y"
              then diag.ConfigFile.ReplaceConfig diag.RefreshToken tok (store w)
              else store w) /\
  writes w' = (if String.eqb answer "Y"
               then (writes w ++ [(diag.RefreshToken, tok)])%list
               else writes w).
Proof.
  unfold consoleLine, replaceRefreshToken, bind, log.Print, fmt.Print,
    bufio.ReadString, bufio.NewReader.
  cbn [stdin stdout logged store writes bufio.buf fst snd].
  destruct (bufio.readUntil LF "" (stdin w)) as [[[line err] rest] input'].
  cbn [fst snd].
  destruct (String.eqb (strings.Replace line nl "" (-1)) "Y"); split; reflexivity.
Qed.

(** What [replaceCloudCredentials] does when the operator types the two
    lines. *)
Lemma replaceCloudCredentials_typed (cf : diag.ConfigFile.t) (w : World)
      (id secret : string) (rest : list string) :
  strings.Contains id nl = false ->
  strings.Contains secret nl = false ->
  stdin w = (typed [id; secret] ++ rest)%list ->
  let w' := snd (replaceCloudCredentials cf w) in
  stdin w' = rest /\
  logged w' = (logged w ++ [
    "Follow this guide to setup your OAuth2 client ID and client secret: https://developers.google.com/adwords/api/docs/guides/first-api-call#set_up_oauth2_authentication"])%list /\
  store w' = diag.ConfigFile.ReplaceConfig diag.ClientSecret secret
               (diag.ConfigFile.ReplaceConfig diag.ClientID id (store w)) /\
  writes w' = ((writes w ++ [(diag.ClientID, id)]) ++ [(diag.ClientSecret, secret)])%list.
Proof.
  intros Hid Hsecret Hin.
  unfold replaceCloudCredentials, bind, log.Print, fmt.Print,
    bufio.ReadString, bufio.NewReader, ReplaceConfig.
  cbn [stdin stdout logged store writes bufio.buf fst snd].
  rewrite Hin. cbn [typed map app].
  rewrite (readUntil_typed id _ Hid). cbn [stdin stdout logged store writes fst snd].
  rewrite (readUntil_typed secret _ Hsecret).
  cbn [stdin stdout logged store writes fst snd].
  rewrite (strip_typed_line id Hid), (strip_typed_line secret Hsecret).
  repeat split.
Qed.

End Remediation.

(** C4. [replaceRefreshToken] writes the new refresh token to the store
    exactly when the line it reads, its line feeds removed, is [Y]; with any
    other answer the store is as it was and nothing is written. *)
Theorem refresh_token_gate (cf : diag.ConfigFile.t) (tok : string) (w : World) :
  let answer := strings.Replace (consoleLine w) nl "" (-1) in
  let w' := snd (replaceRefreshToken cf tok w) in
  (answer = "Y" <-> writes w' = (writes w ++ [(diag.RefreshToken, tok)])%list) /\
  (answer = "Y" ->
   store w' = diag.ConfigFile.ReplaceConfig diag.RefreshToken tok (store w)) /\
  (answer <> "Y" -> store w' = store w /\ writes w' = writes w).
Proof.
  intros answer w'.
  destruct (replaceRefreshToken_run cf tok w) as [Hs Hw].
  fold answer in Hs, Hw. fold w' in Hs, Hw.
  destruct (String.eqb_spec answer "Y") as [E | E].
  - split; [split; [intros _; exact Hw | intros _; exact E] |].
    split; [intros _; exact Hs | intros H; contradiction].
  - split; [split; [intros H; contradiction |] |].
    + intros H. rewrite Hw in H. symmetry in H. now apply app_one_neq in H.
    + split; [intros H; contradiction | intros _; now split].
Qed.

(** The answers of the specification, typed at a terminal. *)
Lemma refresh_token_gate_witness :
  let run answer :=
    snd (replaceRefreshToken sampleStore "1//new" (sampleWorld (typed [answer]))) in
  (store (run "yes") = sampleStore /\ writes (run "yes") = []) /\
  diag.ConfigFile.RefreshToken (store (run "Y")) = "1//new".
Proof.
  intros run. split.
  - apply (proj2 (proj2 (refresh_token_gate sampleStore "1//new"
                           (sampleWorld (typed ["yes"]))))).
    vm_compute. discriminate.
  - unfold run.
    rewrite (proj1 (proj2 (refresh_token_gate sampleStore "1//new"
                             (sampleWorld (typed ["Y"]))))); reflexivity.
Defined.

Example refresh_token_gate_answers :
  let run input :=
    snd (replaceRefreshToken sampleStore "1//new" (sampleWorld input)) in
  writes (run (typed ["Y"])) = [(diag.RefreshToken, "1//new")] /\
  Forall (fun answer => store (run (typed [answer])) = sampleStore /\
                        writes (run (typed [answer])) = [])
         ["y"; "yes"; "N"; ""; " Y"; "Y "] /\
  store (run []) = sampleStore.
Proof. vm_compute. repeat constructor. Qed.

(** When each of the lines [abc.apps.googleusercontent.com] and [secretXYZ]
    comes with a read of its own, the action for [InvalidClientInfo] sets the
    client ID and the client secret of the store to these lines without
    their line feed, by one write each, and leaves the developer token, the
    refresh token and the login customer ID as they were. *)
Lemma client_credentials_replaced (c : Config) (w : World) (rest : list string) :
  stdin w = (typed ["abc.apps.googleusercontent.com"; "secretXYZ"] ++ rest)%list ->
  let w' := snd (remediate c InvalidClientInfo w) in
  store w' =
    diag.ConfigFile.mk "abc.apps.googleusercontent.com" "secretXYZ"
      (diag.ConfigFile.DevToken (store w))
      (diag.ConfigFile.RefreshToken (store w))
      (diag.ConfigFile.LoginCustomerID (store w)) /\
  writes w' = (writes w ++ [ (diag.ClientID, "abc.apps.googleusercontent.com");
                             (diag.ClientSecret, "secretXYZ") ])%list.
Proof.
  intros Hin w'.
  pose (w1 := snd (log.Print "ERROR: Your client ID and/or secret may be invalid." w)).
  assert (E : w' = snd (replaceCloudCredentials (ConfigFile c) w1)) by reflexivity.
  destruct (replaceCloudCredentials_typed (ConfigFile c) w1
              "abc.apps.googleusercontent.com" "secretXYZ" rest)
    as (_ & _ & Hs & Hw); [reflexivity | reflexivity | exact Hin |].
  rewrite E, Hs, Hw. split; [reflexivity|].
  cbn [w1 log.Print writes snd]. now rewrite <- app_assoc.
Qed.

Lemma client_credentials_replaced_witness :
  let w' := snd (remediate sampleConfig InvalidClientInfo
                   (sampleWorld (typed ["abc.apps.googleusercontent.com"; "secretXYZ"]))) in
  store w' =
    diag.ConfigFile.mk "abc.apps.googleusercontent.com" "secretXYZ"
      "dev-token" "1//old-refresh-token" "9876543210" /\
  writes w' = [ (diag.ClientID, "abc.apps.googleusercontent.com");
                (diag.ClientSecret, "secretXYZ") ].
Proof.
  apply (client_credentials_replaced sampleConfig
           (sampleWorld (typed ["abc.apps.googleusercontent.com"; "secretXYZ"])) []).
  reflexivity.
Defined.

(** The two prompts of [replaceCloudCredentials] have a reader each, and a
    reader keeps what it has read beyond the line it returns.  When one read
    of the console brings both lines (a pipe or a file in place of the
    terminal) the second reader finds the end of the input, and the client
    secret is set to the empty string. *)
Example client_credentials_one_read :
  let w' := snd (remediate sampleConfig InvalidClientInfo
                   (sampleWorld ["abc.apps.googleusercontent.com" ++ nl ++
                                 "secretXYZ" ++ nl])) in
  writes w' = [ (diag.ClientID, "abc.apps.googleusercontent.com");
                (diag.ClientSecret, "") ].
Proof. reflexivity. Qed.

(** C5 on the two lines [abc.apps.googleusercontent.com] and [secretXYZ]
    when one read of the console brings both: the client ID is set to the
    first line, and the client secret is set to the empty string and not to
    [secretXYZ].  The second prompt reads with a reader of its own, and the
    second line went with the reader of the first prompt.  This holds for
    every configuration and whatever was printed or stored before. *)
Theorem client_secret_lost_in_one_read (c : Config) (w : World) :
  let input := ["abc.apps.googleusercontent.com" ++ nl ++ "secretXYZ" ++ nl] in
  let w' := snd (remediate c InvalidClientInfo (withInput input w)) in
  diag.ConfigFile.ClientID (store w') = "abc.apps.googleusercontent.com" /\
  diag.ConfigFile.ClientSecret (store w') = "" /\
  diag.ConfigFile.ClientSecret (store w') <> "secretXYZ" /\
  writes w' = (writes w ++ [ (diag.ClientID, "abc.apps.googleusercontent.com");
                             (diag.ClientSecret, "") ])%list.
Proof.
  cbv zeta.
  split; [reflexivity|]. split; [reflexivity|]. split; [discriminate|].
  transitivity ((writes w ++ [(diag.ClientID, "abc.apps.googleusercontent.com")])
                  ++ [(diag.ClientSecret, "")])%list.
  - reflexivity.
  - now rewrite <- app_assoc.
Qed.

(** C6. For each of the seven reporting codes, two runs of the action one
    after the other log the same message, one message each, and neither run
    changes the store or writes to it. *)
Theorem reporting_codes_idempotent (c : Config) (code : DiagnosticCode) (w : World) :
  In code reportingCodes ->
  let w1 := snd (remediate c code w) in
  let w2 := snd (remediate c code w1) in
  exists msg,
    logged w1 = (logged w ++ [msg])%list /\ logged w2 = (logged w1 ++ [msg])%list /\
    store w1 = store w /\ writes w1 = writes w /\
    store w2 = store w /\ writes w2 = writes w.
Proof.
  intros Hin.
  destruct code; cbn in Hin;
    try (exfalso; repeat destruct Hin as [Hin | Hin]; discriminate || contradiction);
    try (cbn; eexists; repeat split; reflexivity).
  unfold remediate, bind, log.Print, bufio.ReadString, bufio.NewReader, ret.
  cbn [stdin stdout logged store writes bufio.buf fst snd].
  destruct (bufio.readUntil LF "" (stdin w)) as [[[line err] rest] input'].
  cbn [stdin stdout logged store writes fst snd].
  destruct (bufio.readUntil LF "" input') as [[[line2 err2] rest2] input2].
  cbn [stdin stdout logged store writes fst snd].
  eexists; repeat split; reflexivity.
Qed.

Lemma reporting_codes_idempotent_witness :
  let w := sampleWorld (typed [""; ""]) in
  let w1 := snd (remediate sampleConfig GoogleAdsAPIDisabled w) in
  let w2 := snd (remediate sampleConfig GoogleAdsAPIDisabled w1) in
  exists msg,
    logged w1 = (logged w ++ [msg])%list /\ logged w2 = (logged w1 ++ [msg])%list /\
    store w1 = store w /\ writes w1 = writes w /\
    store w2 = store w /\ writes w2 = writes w.
Proof.
  apply (reporting_codes_idempotent sampleConfig GoogleAdsAPIDisabled
           (sampleWorld (typed [""; ""]))).
  cbn. tauto.
Defined.

(** ** The account probe *)

Section AccountProbe.

Lemma find_filter_other {A : Type} (k k' : string) (m : list (string * A)) :
  String.eqb k' k = false ->
  find (fun b => String.eqb (fst b) k)
       (filter (fun b => negb (String.eqb (fst b) k')) m) =
  find (fun b => String.eqb (fst b) k) m.
Proof.
  intros Hk. induction m as [|b m IH]; [reflexivity|].
  simpl. destruct (String.eqb_spec (fst b) k') as [E | E]; simpl.
  - rewrite E, Hk. exact IH.
  - destruct (String.eqb (fst b) k); [reflexivity | exact IH].
Qed.

Lemma index_assign (m : json.gomap) (kv : string * json.any) (k : string) :
  json.index (Some (json.assign m kv)) k =
  if String.eqb (fst kv) k then snd kv else json.index (Some m) k.
Proof.
  unfold json.index, json.assign. cbn [find].
  destruct (String.eqb (fst kv) k) eqn:E; [reflexivity|].
  now rewrite (find_filter_other k (fst kv) m E).
Qed.

(** Storing the members one after the other leaves, under each key, the
    value of the last member with that key. *)
Lemma index_fold_assign (kvs : list (string * json.any)) (m : json.gomap) (k : string) :
  json.index (Some (fold_left json.assign kvs m)) k =
  match lastMember k kvs with
  | Some v => v
  | None => json.index (Some m) k
  end.
Proof.
  revert m. induction kvs as [|kv kvs IH]; intros m; [reflexivity|].
  cbn [fold_left lastMember]. rewrite IH.
  destruct (lastMember k kvs); [reflexivity|].
  rewrite index_assign. now destruct (String.eqb (fst kv) k).
Qed.

Lemma lastMember_map {A B : Type} (f : A -> B) (k : string) (ms : list (string * A)) :
  lastMember k (map (fun kv => (fst kv, f (snd kv))) ms) =
  option_map f (lastMember k ms).
Proof.
  induction ms as [|kv ms IH]; [reflexivity|].
  cbn [map lastMember fst snd]. rewrite IH.
  destruct (lastMember k ms); [reflexivity|].
  now destruct (String.eqb (fst kv) k).
Qed.

(** What the map holds under a key after [Unmarshal] into a nil map. *)
Lemma Unmarshal_index (body k : string) :
  json.index (fst (json.Unmarshal body None)) k =
  match lastMember k (topLevelMembers body) with
  | Some v => json.valueInterface v
  | None => json.Nil
  end.
Proof.
  unfold json.Unmarshal, topLevelMembers.
  destruct (json.parse body) as [[ | b | lit | str | l | ms] |];
    try reflexivity.
  cbn [fst]. rewrite index_fold_assign, lastMember_map.
  now destruct (lastMember k ms).
Qed.

Lemma valueInterface_nil (v : json.JValue) :
  json.valueInterface v = json.Nil <-> decodesToNil v = true.
Proof.
  destruct v; cbn [json.valueInterface decodesToNil];
    try (split; [discriminate | discriminate]).
  split; reflexivity.
Qed.

Lemma index_error_reportsError (body : string) :
  json.index (fst (json.Unmarshal body None)) "error" = json.Nil <->
  reportsError body = false.
Proof.
  rewrite Unmarshal_index. unfold reportsError.
  destruct (lastMember "error" (topLevelMembers body)) as [v|].
  - rewrite valueInterface_nil. now destruct (decodesToNil v).
  - split; reflexivity.
Qed.

(** A body that reports an error has a top-level [error] member. *)
Lemma reportsError_hasTopLevelError (body : string) :
  reportsError body = true -> hasTopLevelError body = true.
Proof.
  unfold reportsError, hasTopLevelError.
  induction (topLevelMembers body) as [|kv ms IH]; [discriminate|].
  cbn [lastMember existsb].
  destruct (lastMember "error" ms) as [v|].
  - intros H. rewrite (IH H). apply orb_true_r.
  - destruct (String.eqb (fst kv) "error"); [reflexivity | discriminate].
Qed.

Variable urlParses : string -> bool.

(** [getAccount] when the request can be built: the request it sends, and
    what it returns by the answer of the transport. *)
Lemma getAccount_run (c : Config) (client : http.Client) (w : World) :
  urlParses (accountURL c) = true ->
  exists req,
    http.Method req = "GET" /\ http.URL req = accountURL c /\
    In ("developer-token", diag.ConfigFile.DevToken (ConfigFile c)) (http.Header req) /\
    getAccount urlParses c client w =
    match client req with
    | inl err => Return (inl err) w
    | inr resp =>
        Return (if reportsError (http.Body resp)
                then inl (errors.New (http.Body resp))
                else inr (http.Body resp)) w
    end.
Proof.
  intros Hurl. unfold getAccount, NewRequest. fold (accountURL c). rewrite Hurl.
  match goal with
  | |- context [client ?r] => exists r
  end.
  split; [now destruct (negb _) |]. split; [now destruct (negb _) |].
  split.
  - destruct (negb _); cbn; auto.
  - destruct (client _) as [err | resp]; [reflexivity|].
    pose proof (index_error_reportsError (http.Body resp)) as H.
    destruct (json.Unmarshal (http.Body resp) None) as [jsonBody jsonErr].
    cbn [fst] in H.
    destruct (reportsError (http.Body resp)).
    + destruct (json.index jsonBody "error"); try reflexivity.
      destruct H as [H _]. specialize (H eq_refl). discriminate.
    + destruct H as [_ H]. now rewrite (H eq_refl).
Qed.

End AccountProbe.

(** C7, as stated, fails: the body [{"error":null}] has a top-level [error]
    member, and [getAccount] returns it as a success. *)
Lemma account_probe_counterexample :
  let body := js "{'error':null}" in
  let client : http.Client := fun _ => inr (http.mkResponse 200 body) in
  hasTopLevelError body = true /\
  getAccount (fun _ => true) sampleConfig client (sampleWorld []) =
  Return (inr body) (sampleWorld []).
Proof. vm_compute. split; reflexivity. Qed.

(** An [error] member that is a number, of any size, is not [nil]. *)
Example account_probe_number_error :
  Forall (fun text =>
            getAccount (fun _ => true) sampleConfig
                       (fun _ => inr (http.mkResponse 200 (js text))) (sampleWorld [])
            = Return (inl (errors.New (js text))) (sampleWorld []))
         [ "{'error':1e999}"; "{'error':0}"; "{'error':false}"; "{'error':[]}" ].
Proof. repeat (constructor; [vm_compute; reflexivity|]). constructor. Qed.

(** C7, amended.  When the request is sent: if the transport fails,
    [getAccount] fails with the error of the transport; if the transport
    answers with a body that is a JSON object whose last top-level [error]
    member is not [null], [getAccount] fails with an error whose text is the
    whole body (this holds for a member of any other kind: an object, a
    string, a number of any size, a boolean or an array); for every
    other body it returns the body.  So it returns a body exactly when the
    transport answered with that body and the body reports no error. *)
Theorem account_probe_outcome (urlParses : string -> bool) (c : Config)
        (client : http.Client) (w : World) :
  urlParses (accountURL c) = true ->
  exists req,
    (http.Method req = "GET" /\ http.URL req = accountURL c) /\
    (forall err, client req = inl err ->
       getAccount urlParses c client w = Return (inl err) w) /\
    (forall resp, client req = inr resp ->
       (reportsError (http.Body resp) = true ->
        getAccount urlParses c client w = Return (inl (errors.New (http.Body resp))) w /\
        Error (errors.New (http.Body resp)) = http.Body resp) /\
       (reportsError (http.Body resp) = false ->
        getAccount urlParses c client w = Return (inr (http.Body resp)) w)) /\
    (forall body,
       getAccount urlParses c client w = Return (inr body) w <->
       exists resp, client req = inr resp /\ http.Body resp = body /\
                    reportsError body = false).
Proof.
  intros Hurl.
  destruct (getAccount_run urlParses c client w Hurl) as (req & Hm & Hu & _ & Hrun).
  exists req. split; [now split|].
  destruct (client req) as [err | resp] eqn:Hc; rewrite Hrun.
  - split; [intros e [= <-]; reflexivity|].
    split; [intros resp [=]|].
    intros body. split; [intros [=] | intros (resp & [=] & _)].
  - split; [intros e [=]|]. split.
    + intros resp' [= <-]. split; intros ->; [split|]; reflexivity.
    + intros body. split.
      * destruct (reportsError (http.Body resp)) eqn:Hr; intros [= <-].
        now exists resp.
      * intros (resp' & [= <-] & <- & ->). reflexivity.
Qed.

Lemma account_probe_outcome_witness :
  let body := js
    "{'error':{'code':401,'message':'Request had invalid authentication credentials.','status':'UNAUTHENTICATED'}}" in
  let client : http.Client := fun _ => inr (http.mkResponse 401 body) in
  getAccount (fun _ => true) sampleConfig client (sampleWorld []) =
  Return (inl (errors.New body)) (sampleWorld []).
Proof.
  intros body client.
  destruct (account_probe_outcome (fun _ => true) sampleConfig client
              (sampleWorld []) eq_refl) as (req & _ & _ & H & _).
  destruct (H (http.mkResponse 401 body) eq_refl) as [H1 _].
  apply H1. vm_compute. reflexivity.
Defined.

(** ** The token exchange *)

(** C8, as stated, fails: with a token endpoint that refuses the code,
    [oauth2Client] does not return to its caller; the process exits with
    status 1 after the error is logged, and nothing is classified. *)
Lemma exchange_failure_counterexample :
  let refused : error :=
    mkError (js "oauth2: cannot fetch token: 400 Bad Request Response: {'error':'invalid_grant'}")
            "*oauth2.RetrieveError" in
  let Exchange : oauth2.Config -> string -> error + oauth2.Token :=
    fun _ _ => inl refused in
  let run :=
    oauth2Client Exchange (fun _ _ _ => inl io.EOF) "http://localhost:8080"
                 sampleConfig "4/0AX4XfWh" (sampleWorld []) in
  run = Exit 1 (mkWorld [] [] [Error refused] sampleStore []) /\
  ~ (exists r w', run = Return r w').
Proof.
  cbv zeta. split; [reflexivity|]. intros (r & w' & H). discriminate H.
Qed.

(** C8, amended.  When the exchange fails, [oauth2Client] logs the error
    and the process exits with status 1, the console and the store as they
    were; when it succeeds, [oauth2Client] returns the authorized client and
    the refresh token of the token. *)
Theorem exchange_failure_is_fatal
        (Exchange : oauth2.Config -> string -> error + oauth2.Token)
        (authorizedClient : oauth2.Config -> oauth2.Token -> http.Client)
        (InstalledAppRedirectURL : string)
        (c : Config) (code : string) (w : World) :
  let conf := oauth2Conf c InstalledAppRedirectURL in
  let run := oauth2Client Exchange authorizedClient InstalledAppRedirectURL c code w in
  (forall err, Exchange conf code = inl err ->
     run = Exit 1 (mkWorld (stdin w) (stdout w) (logged w ++ [Error err])%list
                           (store w) (writes w))) /\
  (forall token, Exchange conf code = inr token ->
     run = Return (authorizedClient conf token, oauth2.RefreshToken token) w).
Proof.
  intros conf run. unfold run, oauth2Client. fold conf.
  split; intros x Hx; rewrite Hx; reflexivity.
Qed.

Lemma exchange_failure_is_fatal_witness :
  let refused : error := mkError "oauth2: cannot fetch token" "*oauth2.RetrieveError" in
  oauth2Client (fun _ _ => inl refused) (fun _ _ _ => inl io.EOF)
               "http://localhost:8080" sampleConfig "4/0AX4XfWh" (sampleWorld []) =
  Exit 1 (mkWorld [] [] ["oauth2: cannot fetch token"] sampleStore []).
Proof.
  intros refused.
  apply (proj1 (exchange_failure_is_fatal (fun _ _ => inl refused)
                  (fun _ _ _ => inl io.EOF) "http://localhost:8080"
                  sampleConfig "4/0AX4XfWh" (sampleWorld [])) refused).
  reflexivity.
Defined.

(** ** [diagnose] *)

(** When the first statement of [diagnose] returns, the action taken is the
    one of the code [decodeError] gives. *)
Lemma diagnose_after_surfacing (c : Config) (err : error) (w w1 : World) :
  surfaceMessage err w = Return tt w1 ->
  diagnose c err w = Return tt (snd (remediate c (decodeError c err) w1)).
Proof.
  intros H. unfold diagnose. rewrite H.
  now destruct (remediate c (decodeError c err) w1).
Qed.

(** A text that is not JSON is not surfaced. *)
Lemma surfaceMessage_not_json (err : error) (w : World) :
  json.parse (Error err) = None -> surfaceMessage err w = Return tt w.
Proof. intros H. unfold surfaceMessage, json.Unmarshal. now rewrite H. Qed.

(** C9 on the body of an OAuth error, [{"error":"invalid_grant",...}]: the
    text is JSON, [decodeError] gives [InvalidRefreshToken] for it, and
    [diagnose] panics in the type assertion on the [error] member, before
    anything is logged and before the error is classified. *)
Theorem diagnose_panics_without_message (c : Config) (w : World) :
  let err := errors.New
    (js "{'error':'invalid_grant','error_description':'Bad Request'}") in
  json.parse (Error err) <> None /\
  decodeError c err = InvalidRefreshToken /\
  diagnose c err w =
  Panic "interface conversion: interface {} is string, not map[string]interface {}" w.
Proof.
  cbv zeta. split; [vm_compute; discriminate|]. split; [reflexivity|].
  unfold diagnose, surfaceMessage.
  set (u := json.Unmarshal _ _).
  assert (E : u = (Some [("error_description", json.Str "Bad Request");
                         ("error", json.Str "invalid_grant")], None))
    by (vm_compute; reflexivity).
  rewrite E. reflexivity.
Qed.

(** The same happens for every JSON text without [error.message]. *)
Example diagnose_panics_examples :
  Forall (fun text =>
            exists msg, diagnose sampleConfig (errors.New (js text)) (sampleWorld [])
                        = Panic msg (sampleWorld []))
         [ "{}"; "null"; "{'error':null}"; "{'error':{}}";
           "{'error':{'code':401,'status':'UNAUTHENTICATED'}}";
           "{'error':{'message':404}}"; "{'message':'invalid_client'}" ].
Proof. repeat (constructor; [eexists; vm_compute; reflexivity|]). constructor. Qed.

(** The account probe hands such an error to [diagnose]. *)
Example probe_then_diagnose_panics :
  let body := js "{'error':'invalid_grant','error_description':'Bad Request'}" in
  let client : http.Client := fun _ => inr (http.mkResponse 400 body) in
  getAccount (fun _ => true) sampleConfig client (sampleWorld []) =
  Return (inl (errors.New body)) (sampleWorld []).
Proof. vm_compute. reflexivity. Qed.

(** With an [error.message], the message is logged first and the action of
    the code follows. *)
Example diagnose_manager_account :
  let err := errors.New (js
    "{'error':{'message':'Request cannot be executed by manager account','status':'CANNOT_BE_EXECUTED_BY_MANAGER_ACCOUNT'}}") in
  decodeError sampleConfig err = AccessNotPermittedForManagerAccount /\
  exists w', diagnose sampleConfig err (sampleWorld []) = Return tt w' /\
             logged w' =
             [ "JSON response error: Request cannot be executed by manager account";
               "ERROR: Your credentials are not sufficient to access to a manager account."
                 ++ nl ++ "Please login with a Google Ads account with manager access." ] /\
             store w' = sampleStore /\ writes w' = [].
Proof. cbv zeta. split; [reflexivity|]. eexists. vm_compute. repeat split. Qed.

(** ** [ReadCustomerID] *)

Section CustomerIDFacts.

Lemma Contains_deleteByte (b c : ascii) (s : string) :
  c <> b ->
  strings.Contains (deleteByte b s) (String c "") = strings.Contains s (String c "").
Proof.
  intros Hc. induction s as [|x s IH]; [reflexivity|].
  rewrite Contains_byte_cons. cbn [deleteByte].
  destruct (Ascii.eqb_spec x b) as [-> | Hx].
  - rewrite IH. destruct (Ascii.eqb_spec b c); [congruence | reflexivity].
  - now rewrite Contains_byte_cons, IH.
Qed.

(** Deleting the dashes of a string that has another byte leaves a string
    that is not empty. *)
Lemma deleteByte_not_empty (b c : ascii) (s : string) :
  c <> b -> strings.Contains s (String c "") = true -> deleteByte b s <> "".
Proof.
  intros Hc Hs E. rewrite <- (Contains_deleteByte b c s Hc), E in Hs. discriminate.
Qed.

(** One turn of the loop on a typed line. *)
Lemma ReadCustomerID_loop_typed (fuel : nat) (w : World) (l : string)
      (rest : list string) :
  strings.Contains l nl = false ->
  stdin w = (l ++ nl) :: rest ->
  ReadCustomerID_loop (S fuel) bufio.NewReader w =
  if String.eqb (strings.TrimSpace l) ""
  then ReadCustomerID_loop fuel bufio.NewReader (prompted w rest)
  else Some (strings.Replace (strings.TrimSpace l) "-" "" (-1), prompted w rest).
Proof.
  intros Hl Hin.
  cbn [ReadCustomerID_loop log.Print].
  unfold bufio.ReadString, bufio.NewReader.
  cbn [stdin stdout logged store writes bufio.buf].
  rewrite Hin, (readUntil_typed l rest Hl), (strip_typed_line l Hl).
  unfold prompted.
  now destruct (String.eqb (strings.TrimSpace l) "").
Qed.

(** The loop skips the typed lines that are blank and returns on the first
    one that is not. *)
Lemma ReadCustomerID_typed (blank : list string) :
  forall (w : World) (l : string) (rest : list string),
  Forall (fun x => strings.Contains x nl = false /\ strings.TrimSpace x = "") blank ->
  strings.Contains l nl = false ->
  strings.TrimSpace l <> "" ->
  stdin w = (typed (blank ++ [l]) ++ rest)%list ->
  forall fuel, List.length blank < fuel ->
  exists w',
    ReadCustomerID fuel w =
      Some (strings.Replace (strings.TrimSpace l) "-" "" (-1), w') /\
    stdin w' = rest /\ store w' = store w /\ writes w' = writes w.
Proof.
  unfold ReadCustomerID.
  induction blank as [|b blank IH]; intros w l rest Hblank Hl Hne Hin fuel Hfuel.
  - destruct fuel as [|fuel]; [inversion Hfuel|].
    rewrite (ReadCustomerID_loop_typed fuel w l rest Hl Hin).
    destruct (String.eqb_spec (strings.TrimSpace l) ""); [contradiction|].
    eexists. repeat split.
  - destruct fuel as [|fuel]; [inversion Hfuel|].
    apply Forall_cons_iff in Hblank. destruct Hblank as [[Hb Hbt] Hblank].
    rewrite (ReadCustomerID_loop_typed fuel w b (typed (blank ++ [l]) ++ rest)%list Hb Hin).
    rewrite Hbt. cbn [String.eqb].
    destruct (IH (prompted w (typed (blank ++ [l]) ++ rest)%list) l rest
                 Hblank Hl Hne eq_refl fuel) as (w' & Hrun & Hrest & Hs & Hw).
    { cbn [List.length] in Hfuel. lia. }
    exists w'. now repeat split.
Qed.

End CustomerIDFacts.

(** For the line [-] the loop returns, and what it returns is the empty
    string. *)
Lemma ReadCustomerID_counterexample :
  strings.TrimSpace "-" = "-" /\
  option_map fst (ReadCustomerID 1 (sampleWorld (typed ["-"]))) = Some "".
Proof. split; reflexivity. Qed.

(** Of the lines the operator types, let [l] be the first that is not
    empty once trimmed, and let the trimmed [l] have a byte other than the
    dash.  Then [ReadCustomerID], given enough turns, returns
    the trimmed [l] without its dashes, this string is not empty, the input
    after [l] is left unread, and the store is as it was. *)
Theorem ReadCustomerID_first_line (w : World) (blank : list string) (l : string)
        (rest : list string) (c : ascii) :
  Forall (fun x => strings.Contains x nl = false /\ strings.TrimSpace x = "") blank ->
  strings.Contains l nl = false ->
  c <> "-"%char ->
  strings.Contains (strings.TrimSpace l) (String c "") = true ->
  stdin w = (typed (blank ++ [l]) ++ rest)%list ->
  let id := strings.Replace (strings.TrimSpace l) "-" "" (-1) in
  id <> "" /\
  forall fuel, List.length blank < fuel ->
  exists w', ReadCustomerID fuel w = Some (id, w') /\
             stdin w' = rest /\ store w' = store w /\ writes w' = writes w.
Proof.
  intros Hblank Hl Hc Hcontains Hin id. split.
  - unfold id. rewrite Replace_byte.
    now apply (deleteByte_not_empty "-" c).
  - apply ReadCustomerID_typed; try assumption.
    intros E. rewrite E in Hcontains. discriminate.
Qed.

Lemma ReadCustomerID_first_line_witness :
  option_map fst
    (ReadCustomerID 3 (sampleWorld (typed [""; "   "; " 123-456-7890 "; "42"])))
  = Some "1234567890".
Proof.
  destruct (ReadCustomerID_first_line
              (sampleWorld (typed [""; "   "; " 123-456-7890 "; "42"]))
              [""; "   "] " 123-456-7890 " (typed ["42"]) "1"%char)
    as [_ H].
  - repeat constructor.
  - reflexivity.
  - discriminate.
  - reflexivity.
  - reflexivity.
  - destruct (H 3) as (w' & Hrun & _); [simpl; lia|].
    rewrite Hrun. reflexivity.
Defined.

(** C10 on the line [-]: the line is not empty once trimmed, so the test of
    the loop lets it through; the dashes are removed after the test, and
    [ReadCustomerID] returns the empty string, at the first turn, whatever
    follows the line and whatever the world was. *)
Theorem ReadCustomerID_returns_empty_for_dash (w : World) (rest : list string)
        (fuel : nat) :
  strings.TrimSpace (strings.Replace ("-" ++ nl) nl "" (-1)) <> "" /\
  ReadCustomerID (S fuel) (withInput (("-" ++ nl) :: rest) w) =
  Some ("", prompted w rest).
Proof.
  split; [vm_compute; discriminate|].
  unfold ReadCustomerID.
  rewrite (ReadCustomerID_loop_typed fuel (withInput (("-" ++ nl) :: rest) w)
             "-" rest eq_refl eq_refl).
  reflexivity.
Qed.

(** Without a line that is not blank the loop does not return: at the end
    of the input every turn reads the empty string. *)
Lemma ReadCustomerID_end_of_input (fuel : nat) :
  forall w, stdin w = [] -> ReadCustomerID fuel w = None.
Proof.
  unfold ReadCustomerID.
  induction fuel as [|fuel IH]; intros w Hw; [reflexivity|].
  cbn [ReadCustomerID_loop log.Print]. unfold bufio.ReadString, bufio.NewReader.
  cbn [stdin stdout logged store writes bufio.buf]. rewrite Hw.
  cbn [bufio.readUntil bufio.splitAfter].
  change (strings.TrimSpace (strings.Replace "" nl "" (-1))) with "".
  cbn [String.eqb negb]. now apply IH.
Qed.

(* ===================================================================== *)
(** * Further properties of the code *)
(* ===================================================================== *)

(** ** More on the classifier *)

Section ClassifierOrder.

Lemma Contains_wrapped (t p q pat : string) :
  strings.Contains t pat = true -> strings.Contains (p ++ t ++ q) pat = true.
Proof.
  rewrite !Contains_spec. intros (a & b & ->).
  exists (p ++ a), (b ++ q). now rewrite !append_assoc.
Qed.

Lemma firstMatch_le (t t' : string) (ps : list string) :
  (forall pat, In pat ps -> strings.Contains t pat = true ->
               strings.Contains t' pat = true) ->
  firstMatch t' ps <= firstMatch t ps.
Proof.
  induction ps as [|pat ps IH]; intros H; [apply le_n|].
  cbn [firstMatch].
  destruct (strings.Contains t pat) eqn:E.
  - rewrite (H pat (or_introl eq_refl) E). apply le_n.
  - destruct (strings.Contains t' pat); [lia|].
    apply le_n_S, IH. intros pat' Hin. apply H. now right.
Qed.

(** The code is the one at the place of the first pattern found. *)
Lemma decodeError_rank (c : Config) (err : error) :
  decodeError c err = codeAt (rank (Error err)).
Proof.
  unfold decodeError, rank, patterns. cbn [firstMatch].
  repeat match goal with
         | |- context [if ?b then _ else _] => destruct b; [reflexivity|]
         end.
  reflexivity.
Qed.

Lemma rank_wrapped (t p q : string) : rank (p ++ t ++ q) <= rank t.
Proof.
  apply firstMatch_le. intros pat _. apply Contains_wrapped.
Qed.

Lemma rank_bound (t : string) : rank t <= 10.
Proof.
  unfold rank, patterns. cbn [firstMatch].
  repeat match goal with
         | |- context [if ?b then _ else _] => destruct b; [lia|]
         end.
  lia.
Qed.

Lemma codeAt_UnknownError (n : nat) : n <= 10 -> codeAt n = UnknownError -> n = 10.
Proof.
  intros Hn. do 10 (destruct n as [|n]; [discriminate|]).
  intros _. lia.
Qed.

End ClassifierOrder.

(** X1. [decodeError] returns [UnknownError] only for a text that contains
    none of the ten patterns: the converse of the fall-through. *)
Theorem UnknownError_iff_no_pattern (c : Config) (err : error) :
  decodeError c err = UnknownError <->
  Forall (fun p => strings.Contains (Error err) p = false) patterns.
Proof.
  split; [|apply decodeError_no_pattern].
  unfold decodeError, patterns.
  repeat match goal with
         | |- context [if ?b then _ else _] =>
             destruct b eqn:?; [discriminate|]
         end.
  intros _. repeat (constructor; [assumption|]). constructor.
Qed.

(** X2. An error text that is wrapped in more text (a prefix and a suffix
    around it) is classified by a test that comes no later in the cascade:
    the place of the first pattern found cannot grow.  So a wrapped error
    that had a code other than [UnknownError] keeps a code other than
    [UnknownError], and one classified [InvalidClientInfo] stays so. *)
Theorem wrapping_keeps_priority (c : Config) (err wrapped : error) (p q : string) :
  Error wrapped = p ++ Error err ++ q ->
  rank (Error wrapped) <= rank (Error err) /\
  decodeError c wrapped = codeAt (rank (Error wrapped)) /\
  (decodeError c err <> UnknownError -> decodeError c wrapped <> UnknownError) /\
  (decodeError c err = InvalidClientInfo -> decodeError c wrapped = InvalidClientInfo).
Proof.
  intros Hw.
  assert (Hle : rank (Error wrapped) <= rank (Error err))
    by (rewrite Hw; apply rank_wrapped).
  split; [exact Hle|]. split; [apply decodeError_rank|]. split.
  - rewrite !decodeError_rank. intros H1 H2.
    apply codeAt_UnknownError in H2; [|apply rank_bound].
    apply H1. pose proof (rank_bound (Error err)).
    replace (rank (Error err)) with 10 by lia. reflexivity.
  - rewrite !decodeError_rank. intros H.
    assert (E : rank (Error err) = 0).
    { pose proof (rank_bound (Error err)) as Hb.
      destruct (rank (Error err)) as [|n]; [reflexivity|].
      do 10 (destruct n as [|n]; [discriminate|]). lia. }
    replace (rank (Error wrapped)) with 0 by lia. reflexivity.
Qed.

Lemma wrapping_keeps_priority_witness :
  let err := errors.New (js "{'error':'invalid_grant'}") in
  let wrapped := errors.New
    (js "oauth2: cannot fetch token: 400 Bad Request Response: {'error':'invalid_grant'}") in
  decodeError sampleConfig wrapped <> UnknownError.
Proof.
  intros err wrapped.
  apply (proj1 (proj2 (proj2 (wrapping_keeps_priority sampleConfig err wrapped
           "oauth2: cannot fetch token: 400 Bad Request Response: " "" eq_refl)))).
  discriminate.
Defined.

(** X3. The two codes whose action rewrites the store: [decodeError]
    returns [InvalidClientInfo] exactly for the texts with [invalid_client],
    and [MissingDevToken] exactly for the texts with
    [DEVELOPER_TOKEN_PARAMETER_MISSING] and none of the eight patterns that
    are tested before it. *)
Theorem store_rewriting_codes (c : Config) (err : error) :
  (decodeError c err = InvalidClientInfo <->
   strings.Contains (Error err) "invalid_client" = true) /\
  (decodeError c err = MissingDevToken <->
   strings.Contains (Error err) "DEVELOPER_TOKEN_PARAMETER_MISSING" = true /\
   Forall (fun p => strings.Contains (Error err) p = false) (firstn 8 patterns)).
Proof.
  unfold decodeError, patterns. cbn [firstn]. split.
  - destruct (strings.Contains (Error err) "invalid_client");
      [split; reflexivity|].
    split; [|discriminate].
    repeat match goal with
           | |- context [if ?b then _ else _] => destruct b; [discriminate|]
           end.
    discriminate.
  - split.
    + repeat match goal with
             | |- context [if ?b then _ else _] =>
                 destruct b eqn:?; [discriminate|]
             end.
      destruct (strings.Contains (Error err) "DEVELOPER_TOKEN_PARAMETER_MISSING");
        [|destruct (strings.Contains (Error err) "INVALID_CUSTOMER_ID"); discriminate].
      intros _. split; [reflexivity|].
      repeat (constructor; [assumption|]). constructor.
    + intros [H HF].
      repeat match goal with
             | H : Forall _ (_ :: _) |- _ =>
                 let E := fresh "E" in
                 apply Forall_cons_iff in H; destruct H as [E H]; rewrite E
             end.
      now rewrite H.
Qed.

Lemma UnknownError_iff_no_pattern_witness :
  strings.Contains "x509: certificate signed by unknown authority" "UNAUTHENTICATED" = false.
Proof.
  pose proof (proj1 (UnknownError_iff_no_pattern sampleConfig
    (errors.New "x509: certificate signed by unknown authority")) eq_refl) as H.
  unfold patterns in H.
  do 6 (apply Forall_cons_iff in H; destruct H as [_ H]).
  apply Forall_cons_iff in H. exact (proj1 H).
Defined.

Lemma store_rewriting_codes_witness :
  let err := errors.New (js
    "{'error':{'code':400,'message':'Request contains an invalid argument.','status':'INVALID_ARGUMENT','details':[{'errors':[{'errorCode':{'headerError':'DEVELOPER_TOKEN_PARAMETER_MISSING'}}]}]}}") in
  decodeError sampleConfig err = MissingDevToken.
Proof.
  intros err. apply (proj2 (store_rewriting_codes sampleConfig err)).
  split; [reflexivity | repeat constructor].
Defined.

(** ** More on remediation *)

Section RemediationFacts.

Lemma Contains_deleteByte_same (b : ascii) (s : string) :
  strings.Contains (deleteByte b s) (String b "") = false.
Proof.
  induction s as [|c s IH]; [reflexivity|].
  cbn [deleteByte]. destruct (Ascii.eqb c b) eqn:E; [exact IH|].
  now rewrite Contains_byte_cons, E, IH.
Qed.

Lemma stripped_no_LF (s : string) :
  strings.Contains (strings.Replace s nl "" (-1)) nl = false.
Proof. unfold nl. rewrite Replace_byte. apply Contains_deleteByte_same. Qed.

(** A reader that gets a line and more in one read returns the line and
    keeps the rest. *)
Lemma readUntil_first_line (l extra : string) (rest : list string) :
  strings.Contains l nl = false ->
  bufio.readUntil LF "" ((l ++ nl ++ extra) :: rest) = (l ++ nl, None, extra, rest).
Proof.
  intros H. rewrite readUntil_unfold. cbn [bufio.splitAfter append].
  rewrite readUntil_unfold.
  change (l ++ nl ++ extra) with (l ++ String LF extra).
  now rewrite (splitAfter_line l extra H).
Qed.

End RemediationFacts.

Ltac run_effects :=
  unfold remediate, replaceCloudCredentials, replaceDevToken, bind, ret,
    log.Print, fmt.Print, bufio.ReadString, bufio.NewReader, ReplaceConfig;
  cbn [stdin stdout logged store writes bufio.buf fst snd];
  repeat match goal with
         | |- context [bufio.readUntil ?d ?b ?i] =>
             let line := fresh "line" in
             let err := fresh "err" in
             let rest := fresh "rest" in
             let input := fresh "input" in
             destruct (bufio.readUntil d b i) as [[[line err] rest] input];
             cbn [stdin stdout logged store writes bufio.buf fst snd]
         end.

(** X4. What the action for a code writes, for every code and every console
    input: the fields of [rewrittenKeys], in that order and one write each
    (client ID then client secret for [InvalidClientInfo], the developer
    token for [MissingDevToken], nothing for the other codes); no value
    written has a line feed; and the store afterwards is the store before
    with these writes applied. *)
Theorem remediate_writes (c : Config) (code : DiagnosticCode) (w : World) :
  let w' := snd (remediate c code w) in
  exists added,
    writes w' = (writes w ++ added)%list /\
    map fst added = rewrittenKeys code /\
    Forall (fun kv => strings.Contains (snd kv) nl = false) added /\
    store w' = applyWrites added (store w).
Proof.
  destruct code; run_effects;
    try (exists []; rewrite app_nil_r; repeat split; constructor).
  - eexists [(_, _); (_, _)]. rewrite <- app_assoc.
    repeat split. repeat constructor; apply stripped_no_LF.
  - eexists [(_, _)]. repeat split. repeat constructor; apply stripped_no_LF.
Qed.

(** X5. The action for any code, on any console input (also at the end of
    the input), logs at least one message, and the first one is not empty;
    it only appends to the log and to the standard output. *)
Theorem remediate_reports (c : Config) (code : DiagnosticCode) (w : World) :
  let w' := snd (remediate c code w) in
  exists msg more out,
    logged w' = (logged w ++ msg :: more)%list /\ msg <> "" /\
    stdout w' = (stdout w ++ out)%list.
Proof.
  destruct code; run_effects;
    try (eexists _, [], []; rewrite app_nil_r;
         repeat split; [discriminate]).
  - eexists _, [_], [_; _]. rewrite <- !app_assoc. repeat split. discriminate.
  - eexists _, [_; _], [_]. rewrite <- !app_assoc. repeat split. discriminate.
Qed.

(** X6. When the operator types a line for the developer token, the action
    for [MissingDevToken] sets the developer token of the store to the line
    without its line feed, whatever the line (it is not validated, and may be
    empty), by one write, and leaves the other four fields as they were. *)
Theorem dev_token_replaced (c : Config) (w : World) (tok : string)
        (rest : list string) :
  strings.Contains tok nl = false ->
  stdin w = (tok ++ nl) :: rest ->
  let w' := snd (remediate c MissingDevToken w) in
  store w' =
    diag.ConfigFile.mk (diag.ConfigFile.ClientID (store w))
      (diag.ConfigFile.ClientSecret (store w)) tok
      (diag.ConfigFile.RefreshToken (store w))
      (diag.ConfigFile.LoginCustomerID (store w)) /\
  writes w' = (writes w ++ [(diag.DevToken, tok)])%list /\
  stdin w' = rest.
Proof.
  intros Htok Hin.
  unfold remediate, replaceDevToken, bind, log.Print, fmt.Print,
    bufio.ReadString, bufio.NewReader, ReplaceConfig.
  cbn [stdin stdout logged store writes bufio.buf fst snd].
  rewrite Hin, (readUntil_typed tok rest Htok).
  cbn [stdin stdout logged store writes fst snd].
  rewrite (strip_typed_line tok Htok). repeat split.
Qed.

Lemma dev_token_replaced_witness :
  let w' := snd (remediate sampleConfig MissingDevToken (sampleWorld (typed [""]))) in
  diag.ConfigFile.DevToken (store w') = "" /\
  diag.ConfigFile.ClientID (store w') = "old-id.apps.googleusercontent.com".
Proof.
  intros w'.
  destruct (dev_token_replaced sampleConfig (sampleWorld (typed [""])) "" []
              eq_refl eq_refl) as (Hs & _ & _).
  fold w' in Hs. rewrite Hs. split; reflexivity.
Defined.

(** X7. When the operator types two lines, the action for
    [InvalidClientInfo] sets the client ID to the first and the client
    secret to the second, whatever the lines (an empty line gives an empty
    credential), and leaves the other three fields as they were. *)
Theorem client_credentials_replaced_by_any_lines (c : Config) (w : World)
        (id secret : string) (rest : list string) :
  strings.Contains id nl = false ->
  strings.Contains secret nl = false ->
  stdin w = (typed [id; secret] ++ rest)%list ->
  let w' := snd (remediate c InvalidClientInfo w) in
  store w' =
    diag.ConfigFile.mk id secret
      (diag.ConfigFile.DevToken (store w))
      (diag.ConfigFile.RefreshToken (store w))
      (diag.ConfigFile.LoginCustomerID (store w)) /\
  writes w' = (writes w ++ [(diag.ClientID, id); (diag.ClientSecret, secret)])%list /\
  stdin w' = rest.
Proof.
  intros Hid Hsecret Hin w'.
  pose (w1 := snd (log.Print "ERROR: Your client ID and/or secret may be invalid." w)).
  assert (E : w' = snd (replaceCloudCredentials (ConfigFile c) w1)) by reflexivity.
  destruct (replaceCloudCredentials_typed (ConfigFile c) w1 id secret rest Hid Hsecret Hin)
    as (Hr & _ & Hs & Hw).
  rewrite E, Hs, Hw, Hr. split; [reflexivity|]. split; [|reflexivity].
  cbn [w1 log.Print writes snd]. now rewrite <- app_assoc.
Qed.

Lemma client_credentials_replaced_by_any_lines_witness :
  let w' := snd (remediate sampleConfig InvalidClientInfo (sampleWorld (typed [""; ""]))) in
  diag.ConfigFile.ClientID (store w') = "" /\
  diag.ConfigFile.ClientSecret (store w') = "" /\
  diag.ConfigFile.DevToken (store w') = "dev-token".
Proof.
  intros w'.
  destruct (client_credentials_replaced_by_any_lines sampleConfig
              (sampleWorld (typed [""; ""])) "" "" [] eq_refl eq_refl eq_refl)
    as (Hs & _ & _).
  fold w' in Hs. rewrite Hs. repeat split.
Defined.

(** X8. The two prompts of [replaceCloudCredentials] read with a reader
    each.  When the read that brings the first line brings more bytes after
    its line feed, these bytes are dropped with the first reader: the client
    secret is the next line of the reads that follow, and it is empty when no
    read follows. *)
Theorem client_secret_skips_buffered_bytes (c : Config) (w : World)
        (id extra : string) (rest : list string) :
  strings.Contains id nl = false ->
  stdin w = (id ++ nl ++ extra) :: rest ->
  let w' := snd (remediate c InvalidClientInfo w) in
  let secret := strings.Replace (consoleLine (withInput rest w)) nl "" (-1) in
  writes w' = (writes w ++ [(diag.ClientID, id); (diag.ClientSecret, secret)])%list /\
  (rest = [] -> diag.ConfigFile.ClientSecret (store w') = "").
Proof.
  intros Hid Hin.
  unfold remediate, replaceCloudCredentials, bind, log.Print, fmt.Print,
    bufio.ReadString, bufio.NewReader, ReplaceConfig, consoleLine, withInput.
  cbn [stdin stdout logged store writes bufio.buf fst snd].
  rewrite Hin, (readUntil_first_line id extra rest Hid).
  cbn [stdin stdout logged store writes fst snd].
  rewrite (strip_typed_line id Hid).
  destruct (bufio.readUntil LF "" rest) as [[[line err] rest'] input'] eqn:E.
  cbn [stdin stdout logged store writes fst snd].
  split; [now rewrite <- app_assoc|].
  intros ->. cbn in E. injection E as <- _ _ _. reflexivity.
Qed.

Lemma client_secret_skips_buffered_bytes_witness :
  let w' := snd (remediate sampleConfig InvalidClientInfo
                   (sampleWorld ["new-id" ++ nl ++ "new-secret" ++ nl])) in
  diag.ConfigFile.ClientSecret (store w') = "".
Proof.
  apply (proj2 (client_secret_skips_buffered_bytes sampleConfig
                  (sampleWorld ["new-id" ++ nl ++ "new-secret" ++ nl])
                  "new-id" ("new-secret" ++ nl) [] eq_refl eq_refl)).
  reflexivity.
Defined.

(** ** More on [diagnose] *)

Section DiagnoseFacts.

Lemma Unmarshal_error (text : string) :
  snd (json.Unmarshal text None) = None <-> decodable text = true.
Proof.
  unfold json.Unmarshal, decodable.
  destruct (json.parse text) as [[ | b | lit | str | l | ms] |]; cbn [snd];
    try (split; [discriminate | discriminate]).
  - split; reflexivity.
  - destruct (existsb _ ms); cbn [negb]; split; congruence.
Qed.

(** The three ways the first statement of [diagnose] goes. *)
Lemma surfaceMessage_cases (err : error) (w : World) :
  (decodable (Error err) = false /\ surfaceMessage err w = Return tt w) \/
  (decodable (Error err) = true /\
   exists m, errorMessage (Error err) = Some m /\
             surfaceMessage err w =
             Return tt (snd (log.Print ("JSON response error: " ++ m) w))) \/
  (decodable (Error err) = true /\ errorMessage (Error err) = None /\
   exists msg, surfaceMessage err w = Panic msg w).
Proof.
  unfold surfaceMessage, errorMessage.
  pose proof (Unmarshal_error (Error err)) as He.
  pose proof (Unmarshal_index (Error err) "error") as Hi.
  destruct (json.Unmarshal (Error err) None) as [parsedMsg jsonErr].
  cbn [fst snd] in He, Hi.
  destruct jsonErr as [e|].
  - left. split; [|reflexivity].
    destruct (decodable (Error err)); [|reflexivity].
    destruct He as [_ He]. specialize (He eq_refl). discriminate.
  - right. assert (Hd : decodable (Error err) = true) by now apply He.
    rewrite Hi. clear He Hi.
    destruct (lastMember "error" (topLevelMembers (Error err)))
      as [[ | b | lit | str | l | inner] |];
      cbn [json.valueInterface];
      try (right; repeat split; [assumption | eexists; reflexivity]).
    + unfold json.index at 2. fold (json.index (Some (fold_left json.assign
        (map (fun kv => (fst kv, json.valueInterface (snd kv))) inner) [])) "message").
      rewrite index_fold_assign, lastMember_map.
      destruct (lastMember "message" inner) as [[ | b | lit | str | l | ms] |];
        cbn [option_map json.valueInterface json.index find];
        try (right; repeat split; [assumption | eexists; reflexivity]).
      * left. split; [assumption|]. exists str. split; reflexivity.
Qed.


End DiagnoseFacts.

(** X9. What [diagnose] does, for every error.  When the text of the error
    is not decoded by [json.Unmarshal] without an error, nothing is surfaced
    and the action of the code of [decodeError] runs.  When it is decoded and
    has a string under [error.message], that string is logged after
    [JSON response error: ] and the same action runs.  When it is decoded
    and has no such string, [diagnose] panics and the world is as before:
    nothing is logged and no action runs. *)
Theorem diagnose_outcome (c : Config) (err : error) (w : World) :
  (decodable (Error err) = false ->
   diagnose c err w = Return tt (snd (remediate c (decodeError c err) w))) /\
  (decodable (Error err) = true ->
   forall m, errorMessage (Error err) = Some m ->
   diagnose c err w =
   Return tt (snd (remediate c (decodeError c err)
                     (snd (log.Print ("JSON response error: " ++ m) w))))) /\
  (decodable (Error err) = true -> errorMessage (Error err) = None ->
   exists msg, diagnose c err w = Panic msg w).
Proof.
  destruct (surfaceMessage_cases err w)
    as [[Hd Hs] | [[Hd (m & Hm & Hs)] | (Hd & Hm & msg & Hs)]].
  - split; [|split]; try (intros H; congruence).
    intros _. now apply diagnose_after_surfacing.
  - split; [|split]; try (intros H; congruence).
    intros _ m' Hm'. rewrite Hm in Hm'. injection Hm' as <-.
    now apply diagnose_after_surfacing.
  - split; [|split]; try (intros H; congruence).
    intros _ _. exists msg. unfold diagnose. now rewrite Hs.
Qed.

Lemma diagnose_outcome_witness :
  let err := errors.New (js
    "{'error':{'code':403,'message':'The caller does not have permission','status':'PERMISSION_DENIED'}}") in
  exists w',
    diagnose sampleConfig err (sampleWorld (typed [""])) = Return tt w' /\
    logged w' = [ "JSON response error: The caller does not have permission";
                  "Press <Enter> to continue after you enable Google Ads API" ].
Proof.
  intros err. eexists. split.
  - apply (proj1 (proj2 (diagnose_outcome sampleConfig err (sampleWorld (typed [""])))));
      vm_compute; reflexivity.
  - reflexivity.
Defined.



(** ** The console as a stream of bytes *)

Section StreamFacts.

Lemma splitAfter_append_some (d : ascii) (a b l r : string) :
  bufio.splitAfter d a = Some (l, r) ->
  bufio.splitAfter d (a ++ b) = Some (l, r ++ b).
Proof.
  revert l r. induction a as [|c a IH]; intros l r; [discriminate|].
  cbn [bufio.splitAfter append]. destruct (Ascii.eqb c d).
  - intros [= <- <-]. reflexivity.
  - destruct (bufio.splitAfter d a) as [[l' r']|]; [|discriminate].
    intros [= <- <-]. now rewrite (IH l' r' eq_refl).
Qed.

Lemma splitAfter_append_none (d : ascii) (a b : string) :
  bufio.splitAfter d a = None ->
  bufio.splitAfter d (a ++ b) =
  match bufio.splitAfter d b with
  | Some (l, r) => Some (a ++ l, r)
  | None => None
  end.
Proof.
  induction a as [|c a IH].
  - intros _. cbn [append]. now destruct (bufio.splitAfter d b) as [[l r]|].
  - cbn [bufio.splitAfter append]. destruct (Ascii.eqb c d); [discriminate|].
    destruct (bufio.splitAfter d a) as [[l' r']|]; [discriminate|].
    intros _. rewrite (IH eq_refl).
    now destruct (bufio.splitAfter d b) as [[l r]|].
Qed.

(** A line that [splitAfter] returns ends with the delimiter, has no other
    one, and is followed by the rest. *)
Lemma splitAfter_some (d : ascii) (s l r : string) :
  bufio.splitAfter d s = Some (l, r) ->
  exists l0, l = l0 ++ String d "" /\
             strings.Contains l0 (String d "") = false /\ s = l ++ r.
Proof.
  revert l r. induction s as [|c s IH]; intros l r; [discriminate|].
  cbn [bufio.splitAfter]. destruct (Ascii.eqb_spec c d) as [-> | Hc].
  - intros [= <- <-]. exists "". repeat split.
  - destruct (bufio.splitAfter d s) as [[l' r']|]; [|discriminate].
    intros [= <- <-]. destruct (IH l' r' eq_refl) as (l0 & -> & Hl0 & ->).
    exists (String c l0). repeat split.
    rewrite Contains_byte_cons, Hl0.
    destruct (Ascii.eqb_spec c d); [contradiction | reflexivity].
Qed.

Lemma splitAfter_none (d : ascii) (s : string) :
  bufio.splitAfter d s = None -> strings.Contains s (String d "") = false.
Proof.
  induction s as [|c s IH]; [reflexivity|].
  cbn [bufio.splitAfter]. rewrite Contains_byte_cons.
  destruct (Ascii.eqb c d); [discriminate|].
  destruct (bufio.splitAfter d s) as [[l r]|]; [discriminate|].
  intros _. now rewrite IH.
Qed.

(** What a reader returns depends on the bytes in its buffer and in the
    reads to come, taken together, and not on where the reads split them. *)
Lemma readUntil_stream (d : ascii) (input : list string) :
  forall buffered,
  let '(line, err, rest, input') := bufio.readUntil d buffered input in
  match bufio.splitAfter d (buffered ++ stream input) with
  | Some (l, r) => line = l /\ err = None /\ rest ++ stream input' = r
  | None => line = buffered ++ stream input /\ err = Some io.EOF /\
            rest = "" /\ input' = []
  end.
Proof.
  induction input as [|chunk input IH]; intros buffered;
    rewrite readUntil_unfold; cbn [stream fold_right].
  - rewrite append_empty_r.
    destruct (bufio.splitAfter d buffered) as [[l r]|].
    + cbn [stream fold_right]. now rewrite append_empty_r.
    + repeat split. 
  - fold (stream input).
    destruct (bufio.splitAfter d buffered) as [[l r]|] eqn:E.
    + rewrite (splitAfter_append_some d buffered _ l r E).
      cbn [stream fold_right]. repeat split.
    + specialize (IH (buffered ++ chunk)).
      rewrite append_assoc in IH. exact IH.
Qed.

End StreamFacts.

(** X11. [replaceRefreshToken] writes the new refresh token exactly when the
    bytes of the console input start with [Y] and a line feed, or are the
    single byte [Y] before the end of the input; it does not matter how the
    reads split these bytes.  So a [Y] followed by a carriage return or
    preceded by a space is a refusal. *)
Theorem refresh_token_gate_on_bytes (cf : diag.ConfigFile.t) (tok : string) (w : World) :
  let w' := snd (replaceRefreshToken cf tok w) in
  writes w' = (writes w ++ [(diag.RefreshToken, tok)])%list <->
  strings.HasPrefix (stream (stdin w)) ("Y" ++ nl) = true \/ stream (stdin w) = "Y".
Proof.
  intros w'.
  destruct (replaceRefreshToken_run cf tok w) as [_ Hw]. fold w' in Hw.
  assert (Hanswer : String.eqb (strings.Replace (consoleLine w) nl "" (-1)) "Y" = true <->
                    strings.HasPrefix (stream (stdin w)) ("Y" ++ nl) = true \/
                    stream (stdin w) = "Y").
  { unfold consoleLine.
    pose proof (readUntil_stream LF (stdin w) "") as H.
    destruct (bufio.readUntil LF "" (stdin w)) as [[[line err] rest] input'].
    cbn [fst append] in *. rewrite String.eqb_eq.
    destruct (bufio.splitAfter LF (stream (stdin w))) as [[l r]|] eqn:E.
    - destruct H as (-> & _ & _).
      destruct (splitAfter_some LF _ l r E) as (l0 & -> & Hl0 & HS).
      change (String LF "") with nl in *.
      rewrite (strip_typed_line l0 Hl0). split.
      + intros ->. left. rewrite HS. reflexivity.
      + intros [Hp | Hy].
        * apply HasPrefix_spec in Hp. destruct Hp as [q Hq].
          rewrite Hq in E. cbn in E. injection E as E _.
          rewrite <- (strip_typed_line l0 Hl0), <- E. reflexivity.
        * rewrite Hy in E. discriminate.
    - destruct H as (-> & _ & _). apply splitAfter_none in E.
      change (String LF "") with nl in E.
      unfold nl at 1. rewrite Replace_byte, (deleteByte_absent _ _ E). split.
      + intros ->. now right.
      + intros [Hp | Hy]; [|exact Hy].
        apply HasPrefix_spec in Hp. destruct Hp as [q Hq].
        rewrite Hq in E. discriminate. }
  rewrite <- Hanswer.
  destruct (String.eqb (strings.Replace (consoleLine w) nl "" (-1)) "Y").
  - split; [reflexivity | intros _; exact Hw].
  - split; [|discriminate]. intros H. rewrite Hw in H.
    symmetry in H. now apply app_one_neq in H.
Qed.

Lemma refresh_token_gate_on_bytes_witness :
  writes (snd (replaceRefreshToken sampleStore "1//new"
                 (sampleWorld ["Y"; nl ++ "more"])))
  = [(diag.RefreshToken, "1//new")].
Proof.
  apply (proj2 (refresh_token_gate_on_bytes sampleStore "1//new"
                  (sampleWorld ["Y"; nl ++ "more"]))).
  left. reflexivity.
Defined.

(** ** More on [ReadCustomerID] *)

Section ReadCustomerIDFacts.

(** The loop reads the console as a stream of bytes. *)
Lemma ReadCustomerID_loop_stream (fuel : nat) :
  forall r1 w1 r2 w2,
  bufio.buf r1 ++ stream (stdin w1) = bufio.buf r2 ++ stream (stdin w2) ->
  option_map fst (ReadCustomerID_loop fuel r1 w1) =
  option_map fst (ReadCustomerID_loop fuel r2 w2).
Proof.
  induction fuel as [|fuel IH]; intros r1 w1 r2 w2 H; [reflexivity|].
  cbn [ReadCustomerID_loop log.Print]. unfold bufio.ReadString.
  cbn [stdin stdout logged store writes].
  pose proof (readUntil_stream LF (stdin w1) (bufio.buf r1)) as H1.
  pose proof (readUntil_stream LF (stdin w2) (bufio.buf r2)) as H2.
  destruct (bufio.readUntil LF (bufio.buf r1) (stdin w1)) as [[[l1 e1] b1] i1].
  destruct (bufio.readUntil LF (bufio.buf r2) (stdin w2)) as [[[l2 e2] b2] i2].
  rewrite H in H1.
  destruct (bufio.splitAfter LF (bufio.buf r2 ++ stream (stdin w2))) as [[l r]|].
  - destruct H1 as (-> & _ & Hr1). destruct H2 as (-> & _ & Hr2).
    destruct (negb _); [reflexivity|].
    apply IH. cbn [bufio.buf stdin]. congruence.
  - destruct H1 as (-> & _ & -> & ->). destruct H2 as (-> & _ & -> & ->).
    destruct (negb _); [reflexivity|].
    apply IH. reflexivity.
Qed.

(** What the loop returns comes from one line of the input, and the store
    is not touched. *)
Lemma ReadCustomerID_loop_result (fuel : nat) :
  forall r w id w',
  ReadCustomerID_loop fuel r w = Some (id, w') ->
  (exists line,
     id = deleteByte "-" (strings.TrimSpace (deleteByte LF line)) /\
     strings.TrimSpace (deleteByte LF line) <> "") /\
  store w' = store w /\ writes w' = writes w.
Proof.
  induction fuel as [|fuel IH]; intros r w id w'; [discriminate|].
  cbn [ReadCustomerID_loop log.Print]. unfold bufio.ReadString.
  cbn [stdin stdout logged store writes].
  destruct (bufio.readUntil LF (bufio.buf r) (stdin w)) as [[[line err] rest] input].
  unfold nl at 1 2. rewrite !Replace_byte.
  destruct (String.eqb_spec (strings.TrimSpace (deleteByte LF line)) "") as [E | E];
    cbn [negb].
  - intros H. apply IH in H. exact H.
  - intros [= <- <-]. split; [|split; reflexivity].
    exists line. split; [reflexivity | exact E].
Qed.

Lemma length_append (a b : string) :
  String.length (a ++ b) = String.length a + String.length b.
Proof. induction a as [|c a IH]; simpl; [reflexivity | now rewrite IH]. Qed.

Lemma substring_all (s : string) : substring 0 (String.length s) s = s.
Proof. induction s as [|c s IH]; simpl; [reflexivity | now rewrite IH]. Qed.

Lemma substring_drop (r q : string) :
  substring (String.length r) (String.length (r ++ q) - String.length r) (r ++ q) = q.
Proof.
  induction r as [|c r IH]; simpl.
  - rewrite Nat.sub_0_r. apply substring_all.
  - exact IH.
Qed.

Lemma substring_take (a b : string) :
  substring 0 (String.length (a ++ b) - String.length b) (a ++ b) = a.
Proof.
  rewrite length_append, Nat.add_sub.
  induction a as [|c a IH]; simpl.
  - now destruct b.
  - now rewrite IH.
Qed.

Lemma rev_append (a b : string) :
  strings.rev (a ++ b) = strings.rev b ++ strings.rev a.
Proof.
  induction a as [|c a IH]; simpl.
  - now rewrite append_empty_r.
  - now rewrite IH, append_assoc.
Qed.

Lemma rev_involutive (a : string) : strings.rev (strings.rev a) = a.
Proof.
  induction a as [|c a IH]; simpl; [reflexivity|].
  rewrite rev_append, IH. reflexivity.
Qed.

Lemma trimLeftSpace_part (fuel : nat) :
  forall s, exists p, s = p ++ strings.trimLeftSpace fuel s.
Proof.
  induction fuel as [|fuel IH]; intros s; [now exists ""|].
  cbn [strings.trimLeftSpace]. unfold strings.dropSpaceRune.
  destruct (find (strings.HasPrefix s) strings.spaceRunes) as [r|] eqn:E;
    [|now exists ""].
  apply find_some in E. destruct E as [_ E].
  apply HasPrefix_spec in E. destruct E as [q ->].
  rewrite substring_drop. destruct (IH q) as [p Hp].
  exists (r ++ p). rewrite append_assoc. now rewrite <- Hp.
Qed.

Lemma trimRightSpace_part (fuel : nat) :
  forall s, exists q, s = strings.trimRightSpace fuel s ++ q.
Proof.
  induction fuel as [|fuel IH]; intros s;
    [exists ""; now rewrite append_empty_r|].
  cbn [strings.trimRightSpace]. unfold strings.dropLastSpaceRune.
  destruct (find _ strings.spaceRunes) as [r|] eqn:E;
    [|exists ""; now rewrite append_empty_r].
  apply find_some in E. destruct E as [_ E].
  apply HasPrefix_spec in E. destruct E as [q Hq].
  assert (Hs : s = strings.rev q ++ r).
  { rewrite <- (rev_involutive s), Hq, rev_append, rev_involutive. reflexivity. }
  clear Hq. subst s. rewrite substring_take.
  destruct (IH (strings.rev q)) as [q' Hq'].
  exists (q' ++ r). now rewrite <- append_assoc, <- Hq'.
Qed.

(** [TrimSpace] returns a part of its argument. *)
Lemma TrimSpace_part (s : string) :
  exists p q, s = p ++ strings.TrimSpace s ++ q.
Proof.
  unfold strings.TrimSpace.
  destruct (trimLeftSpace_part (String.length s) s) as [p Hp].
  destruct (trimRightSpace_part
              (String.length (strings.trimLeftSpace (String.length s) s))
              (strings.trimLeftSpace (String.length s) s)) as [q Hq].
  exists p, q. rewrite <- Hq. exact Hp.
Qed.

End ReadCustomerIDFacts.

(** X12. [ReadCustomerID] keeps one reader for all its turns, so what it
    returns depends on the bytes of the console input only, and not on how
    the reads split them into chunks. *)
Theorem ReadCustomerID_reads_a_stream (fuel : nat) (w1 w2 : World) :
  stream (stdin w1) = stream (stdin w2) ->
  option_map fst (ReadCustomerID fuel w1) = option_map fst (ReadCustomerID fuel w2).
Proof.
  intros H. unfold ReadCustomerID.
  apply ReadCustomerID_loop_stream. cbn [bufio.buf bufio.NewReader append].
  exact H.
Qed.

Lemma ReadCustomerID_reads_a_stream_witness :
  option_map fst
    (ReadCustomerID 2 (sampleWorld [nl ++ "123-"; "456"; "-7890" ++ nl ++ "x"]))
  = Some "1234567890".
Proof.
  rewrite (ReadCustomerID_reads_a_stream 2
             (sampleWorld [nl ++ "123-"; "456"; "-7890" ++ nl ++ "x"])
             (sampleWorld [nl; "123-456-7890" ++ nl; "x"])).
  - reflexivity.
  - reflexivity.
Defined.

(** X13. When every line the operator types is empty once trimmed and the
    input ends after them, [ReadCustomerID] does not return, however many
    turns its loop is given: at the end of the input every turn reads the
    empty string and asks again. *)
Theorem ReadCustomerID_never_returns_on_blank_input (blank : list string) :
  forall (w : World),
  Forall (fun x => strings.Contains x nl = false /\ strings.TrimSpace x = "") blank ->
  stdin w = typed blank ->
  forall fuel, ReadCustomerID fuel w = None.
Proof.
  unfold ReadCustomerID.
  induction blank as [|b blank IH]; intros w Hblank Hin fuel.
  - apply (ReadCustomerID_end_of_input fuel w Hin).
  - destruct fuel as [|fuel]; [reflexivity|].
    apply Forall_cons_iff in Hblank. destruct Hblank as [[Hb Hbt] Hblank].
    rewrite (ReadCustomerID_loop_typed fuel w b (typed blank) Hb Hin), Hbt.
    cbn [String.eqb]. now apply IH.
Qed.

Lemma ReadCustomerID_never_returns_on_blank_input_witness :
  ReadCustomerID 50 (sampleWorld (typed [""; "   "; ""])) = None.
Proof.
  apply (ReadCustomerID_never_returns_on_blank_input [""; "   "; ""]).
  - repeat constructor.
  - reflexivity.
Defined.

(** X14. Whatever the console input, a customer ID that [ReadCustomerID]
    returns has no dash and no line feed, and the call leaves the store and
    its write log as they were. *)
Theorem ReadCustomerID_result (fuel : nat) (w w' : World) (id : string) :
  ReadCustomerID fuel w = Some (id, w') ->
  strings.Contains id "-" = false /\ strings.Contains id nl = false /\
  store w' = store w /\ writes w' = writes w.
Proof.
  intros H. apply ReadCustomerID_loop_result in H.
  destruct H as [(line & -> & _) [Hs Hw]].
  split; [apply Contains_deleteByte_same|]. split; [|now split].
  unfold nl. rewrite Contains_deleteByte by discriminate.
  destruct (strings.Contains (strings.TrimSpace (deleteByte LF line)) (String LF ""))
    eqn:E; [|reflexivity].
  destruct (TrimSpace_part (deleteByte LF line)) as (p & q & Hpq).
  apply (Contains_wrapped _ p q) in E. rewrite <- Hpq in E.
  now rewrite Contains_deleteByte_same in E.
Qed.

Lemma ReadCustomerID_result_witness :
  strings.Contains " 1234 " "-" = false /\ strings.Contains " 1234 " nl = false.
Proof.
  destruct (ReadCustomerID_result 1 (sampleWorld ["- 12-34 -" ++ nl]) _ " 1234 " eq_refl)
    as (H1 & H2 & _).
  split; assumption.
Defined.

(** ** More on the account probe *)

Section AccountProbeFacts.

Variable urlParses : string -> bool.

(** [getAccount] when the request can be built, with the request spelled
    out. *)
Lemma getAccount_request (c : Config) (client : http.Client) (w : World) :
  urlParses (accountURL c) = true ->
  getAccount urlParses c client w =
  match client (accountRequest c) with
  | inl err => Return (inl err) w
  | inr resp =>
      Return (if reportsError (http.Body resp)
              then inl (errors.New (http.Body resp))
              else inr (http.Body resp)) w
  end.
Proof.
  intros Hurl. unfold getAccount, NewRequest, accountRequest.
  fold (accountURL c). rewrite Hurl.
  assert (E : forall dev login,
    (if negb (String.eqb login "")
     then http.Header_Set "login-customer-id" login
            (http.Header_Set "developer-token" dev
               (http.mkRequest "GET" (accountURL c) []))
     else http.Header_Set "developer-token" dev
            (http.mkRequest "GET" (accountURL c) [])) =
    http.mkRequest "GET" (accountURL c)
      (if String.eqb login ""
       then [("developer-token", dev)]
       else [("login-customer-id", login); ("developer-token", dev)])).
  { intros dev login. now destruct (String.eqb login ""). }
  rewrite E. clear E.
  destruct (client _) as [err | resp]; [reflexivity|].
  pose proof (index_error_reportsError (http.Body resp)) as H.
  destruct (json.Unmarshal (http.Body resp) None) as [jsonBody jsonErr].
  cbn [fst] in H.
  destruct (reportsError (http.Body resp)).
  - destruct (json.index jsonBody "error"); try reflexivity.
    destruct H as [H _]. specialize (H eq_refl). discriminate.
  - destruct H as [_ H]. now rewrite (H eq_refl).
Qed.

End AccountProbeFacts.

(** X15. How [getAccount] ends, for every configuration, client and world:
    it panics exactly when the URL made from the customer ID does not parse
    (the request is nil and its header is set), and then with the nil
    dereference message; it never ends the process; and however it ends, the
    world (console, log and store) is as before. *)
Theorem getAccount_ends (urlParses : string -> bool) (c : Config)
        (client : http.Client) (w : World) :
  ((exists msg w', getAccount urlParses c client w = Panic msg w') <->
   urlParses (accountURL c) = false) /\
  (forall status w', getAccount urlParses c client w <> Exit status w') /\
  (forall msg w', getAccount urlParses c client w = Panic msg w' ->
                  msg = nilDereference /\ w' = w) /\
  (forall r w', getAccount urlParses c client w = Return r w' -> w' = w).
Proof.
  destruct (urlParses (accountURL c)) eqn:Hurl.
  - rewrite (getAccount_request urlParses c client w Hurl).
    destruct (client (accountRequest c)) as [err | resp].
    + split; [split; [intros (msg & w' & H); discriminate | discriminate]|].
      split; [discriminate|]. split; [discriminate|]. now intros r w' [= _ <-].
    + split; [split; [intros (msg & w' & H); discriminate | discriminate]|].
      split; [discriminate|]. split; [discriminate|]. now intros r w' [= _ <-].
  - assert (E : getAccount urlParses c client w = Panic nilDereference w).
    { unfold getAccount, NewRequest. fold (accountURL c). now rewrite Hurl. }
    rewrite E. split; [split; [reflexivity | intros _; now exists nilDereference, w]|].
    split; [discriminate|]. split; [|discriminate].
    intros msg w' [= <- <-]. now split.
Qed.

Lemma getAccount_ends_witness :
  let refuses : string -> bool := fun url => negb (strings.Contains url "%") in
  let c := mkConfig sampleStore "50%" InstalledApp false in
  exists msg w', getAccount refuses c (fun _ => inl io.EOF) (sampleWorld []) = Panic msg w'.
Proof.
  intros refuses c.
  apply (proj2 (proj1 (getAccount_ends refuses c (fun _ => inl io.EOF) (sampleWorld [])))).
  reflexivity.
Defined.

(** X16. [getAccount] sends one request, a [GET] of the customer URL with
    the developer token, and with the login customer ID only when it is not
    empty.  It does not look at the status of the response: a response whose
    body is not a JSON object with a top-level [error] member (a body that is
    not JSON at all, for instance) is returned as a success, whatever its
    status code. *)
Theorem getAccount_ignores_status (urlParses : string -> bool) (c : Config)
        (client : http.Client) (w : World) (resp : http.Response) :
  urlParses (accountURL c) = true ->
  client (accountRequest c) = inr resp ->
  hasTopLevelError (http.Body resp) = false ->
  getAccount urlParses c client w = Return (inr (http.Body resp)) w.
Proof.
  intros Hurl Hc Hb.
  rewrite (getAccount_request urlParses c client w Hurl), Hc.
  destruct (reportsError (http.Body resp)) eqn:E; [|reflexivity].
  apply reportsError_hasTopLevelError in E. congruence.
Qed.

Lemma getAccount_ignores_status_witness :
  let page := "<html><body>502 Bad Gateway</body></html>" in
  getAccount (fun _ => true) sampleConfig
             (fun _ => inr (http.mkResponse 502 page)) (sampleWorld [])
  = Return (inr page) (sampleWorld []).
Proof.
  intros page.
  apply (getAccount_ignores_status (fun _ => true) sampleConfig
           (fun _ => inr (http.mkResponse 502 page)) (sampleWorld [])
           (http.mkResponse 502 page)); reflexivity.
Defined.
